(** * rrt_algorithms.search_space.search_space

    A shallow embedding of [SearchSpace] and [ObstacleRtree] and the
    properties of the search-space specification that concern them.

    Scalars (Python floats) are modelled by the rationals [Q]; rounding,
    infinities and NaN are outside the model.  Python exceptions are values
    of [exn], and a computation that may raise returns a [result]. *)

From Stdlib Require Import String.
From Stdlib Require Import List ZArith QArith Qround Lia Lqa Bool Permutation.
Import ListNotations.

(** ** Exceptions and Python built-ins *)

Inductive exn : Type :=
| Exception (msg : string)
| IndexError
| RTreeError (msg : string).

Inductive result (A : Type) : Type :=
| Ok (a : A)
| Raise (e : exn).

Arguments Ok {A} a.
Arguments Raise {A} e.

Definition bind {A B : Type} (c : result A) (k : A -> result B) : result B :=
  match c with
  | Ok a => k a
  | Raise e => Raise e
  end.

Declare Scope py_scope.
Delimit Scope py_scope with py.
Notation "x <- c ;; k" := (bind c (fun x => k))
  (at level 61, c at next level, right associativity) : py_scope.
Open Scope py_scope.

Definition Point := list Q.

(** [len(l)] as a Python integer. *)
Definition len {A : Type} (l : list A) : Z := Z.of_nat (length l).

(** [l[k]]: a negative index counts from the end, an index out of range
    raises [IndexError]. *)
Definition py_index {A : Type} (l : list A) (k : Z) : result A :=
  let k' := if (k <? 0)%Z then (len l + k)%Z else k in
  if (k' <? 0)%Z then Raise IndexError
  else match nth_error l (Z.to_nat k') with
       | Some a => Ok a
       | None => Raise IndexError
       end.

(** [int(q)]: truncation towards zero. *)
Definition py_int (q : Q) : Z :=
  if Qle_bool 0 q then Qfloor q else Qceiling q.

(** [range(n)]. *)
Definition py_range (n : Z) : list Z :=
  map Z.of_nat (seq 0 (Z.to_nat n)).

(** [any(f(a) for a in l)]: evaluated from the left, stops at the first
    true element; an exception raised before that propagates. *)
Fixpoint py_any {A : Type} (f : A -> result bool) (l : list A) : result bool :=
  match l with
  | [] => Ok false
  | a :: l' =>
      b <- f a ;;
      if b then Ok true else py_any f l'
  end.

(** [a >= b] on scalars. *)
Definition ge_bool (a b : Q) : bool := Qle_bool b a.

(** ** numpy.random

    The process-wide generator is modelled by the stream of unit variates
    it is going to deliver, each in the half-open interval [0, 1), and the
    number of variates consumed so far. *)

Record RandomState : Type := {
  variates : nat -> Q;
  position : nat
}.

(** [np.random.random_sample()]: the next unit variate. *)
Definition random_sample (g : RandomState) : Q * RandomState :=
  (g.(variates) g.(position),
   {| variates := g.(variates); position := S g.(position) |}).

(** [np.random.uniform(low, high)] on arrays: one variate per element,
    [low + (high - low) * u]. *)
Fixpoint uniform (low high : list Q) (g : RandomState) : list Q * RandomState :=
  match low, high with
  | l :: low', h :: high' =>
      let (u, g1) := random_sample g in
      let (xs, g2) := uniform low' high' g1 in
      (l + (h - l) * u :: xs, g2)
  | _, _ => ([], g)
  end.

(** [a[:, c]] on a two-dimensional array given by its rows. *)
Fixpoint column (a : list (list Q)) (c : Z) : result (list Q) :=
  match a with
  | [] => Ok []
  | row :: a' =>
      x <- py_index row c ;;
      xs <- column a' c ;;
      Ok (x :: xs)
  end.

(** ** class SearchSpace *)

Module SearchSpace.

Record t : Type := {
  dimensions : Z;
  dimension_lengths : list (list Q);
  obstacle_free : Point -> bool;
  collision_free : Point -> Point -> Q -> bool
}.

Definition __init__ (dimension_lengths : list (list Q))
    (obstacle_free : Point -> bool)
    (collision_free : Point -> Point -> Q -> bool) : result t :=
  if (len dimension_lengths <? 2)%Z then
    Raise (Exception "Must have at least 2 dimensions")
  else
    let dimensions := len dimension_lengths in
    malformed <- py_any (fun i => Ok (negb (len i =? 2)%Z)) dimension_lengths ;;
    if malformed then
      Raise (Exception "Dimensions can only have a start and end")
    else
      degenerate <- py_any (fun i => i0 <- py_index i 0 ;;
                                     i1 <- py_index i 1 ;;
                                     Ok (ge_bool i0 i1)) dimension_lengths ;;
      if degenerate then
        Raise (Exception "Dimension start must be less than dimension end")
      else
        Ok {| dimensions := dimensions;
              dimension_lengths := dimension_lengths;
              obstacle_free := obstacle_free;
              collision_free := collision_free |}.

Definition sample (self : t) (g : RandomState) : result (Point * RandomState) :=
  low <- column self.(dimension_lengths) 0 ;;
  high <- column self.(dimension_lengths) 1 ;;
  Ok (uniform low high g).

(** [while True] has no bound of its own; [fuel] bounds the number of
    iterations the model unrolls, and [None] means that it ran out. *)
Fixpoint sample_free (fuel : nat) (self : t) (g : RandomState)
  : option (result (Point * RandomState)) :=
  match fuel with
  | O => None
  | S fuel' =>
      match sample self g with
      | Raise e => Some (Raise e)
      | Ok (x, g') =>
          if self.(obstacle_free) x then Some (Ok (x, g'))
          else sample_free fuel' self g'
      end
  end.

(** The outcome of the call of [sample] that follows [k] earlier calls. *)
Fixpoint draw (self : t) (g : RandomState) (k : nat)
  : result (Point * RandomState) :=
  match k with
  | O => sample self g
  | S k' => xg <- sample self g ;; draw self (snd xg) k'
  end.

End SearchSpace.

(** ** The rtree package

    [index.Property] and [index.Index] as far as the program uses them: an
    index created with [interleaved=True], either empty or bulk-loaded from
    a stream, and queried with [count].  An index is modelled by the list of
    its entries; item identifiers are left out, as [count] does not observe
    them.  The tree that the library builds over the entries only serves to
    answer the same query faster. *)

Module rtree.

Record Property : Type := { dimension : Z }.

(** [index.Property()]. *)
Definition Property_new : Property := {| dimension := 2 |}.

(** [p.dimension = value]. *)
Definition set_dimension (p : Property) (value : Z) : result Property :=
  if (value <=? 0)%Z then
    Raise (RTreeError "Negative or 0 dimensional indexes are not allowed")
  else Ok {| dimension := value |}.

Record Entry : Type := {
  mins : list Q;
  maxs : list Q;
  obj : list Q
}.

Record Index : Type := {
  properties : Property;
  entries : list Entry
}.

(** Coordinates of a query or of an item: a point [(x, y)] stands for the
    box [(x, y, x, y)]; anything else has to be a box, minima first, with
    no minimum above its maximum. *)
Definition get_coordinate_pointers (p : Property) (coordinates : list Q)
  : result (list Q * list Q) :=
  let dim := p.(dimension) in
  let coordinates :=
    if (len coordinates =? dim)%Z then coordinates ++ coordinates
    else coordinates in
  if negb (len coordinates =? dim * 2)%Z then
    Raise (RTreeError "Coordinates must be in the form (minx, miny, maxx, maxy) or (x, y) for 2D indexes")
  else
    let lo := firstn (Z.to_nat dim) coordinates in
    let hi := skipn (Z.to_nat dim) coordinates in
    if forallb (fun '(a, b) => Qle_bool a b) (combine lo hi) then Ok (lo, hi)
    else Raise (RTreeError "Coordinates must not have minimums more than maximums").

(** [index.Index(interleaved=True, properties=p)]. *)
Definition Index_new (p : Property) : Index :=
  {| properties := p; entries := [] |}.

Fixpoint load (p : Property) (stream : list (list Q * list Q))
  : result (list Entry) :=
  match stream with
  | [] => Ok []
  | (coordinates, o) :: stream' =>
      box <- get_coordinate_pointers p coordinates ;;
      rest <- load p stream' ;;
      Ok ({| mins := fst box; maxs := snd box; obj := o |} :: rest)
  end.

(** [index.Index(stream, interleaved=True, properties=p)]. *)
Definition Index_stream (stream : list (list Q * list Q)) (p : Property)
  : result Index :=
  es <- load p stream ;;
  Ok {| properties := p; entries := es |}.

(** Two closed boxes meet when on every axis neither lies wholly beyond
    the other. *)
Definition intersects (lo hi : list Q) (e : Entry) : bool :=
  forallb (fun '((elo, ehi), (qlo, qhi)) => Qle_bool elo qhi && Qle_bool qlo ehi)
          (combine (combine e.(mins) e.(maxs)) (combine lo hi)).

(** [idx.count(coordinates)]: how many entries meet the query box. *)
Definition count (idx : Index) (coordinates : list Q) : result Z :=
  box <- get_coordinate_pointers idx.(properties) coordinates ;;
  Ok (len (filter (intersects (fst box) (snd box)) idx.(entries))).

End rtree.

(** ** rrt_algorithms.utilities *)

(** Modelled from the spec: [obstacle_generator] of
    rrt_algorithms.utilities.obstacle_generation, whose source is not among
    the files at hand.  The spec has every obstacle loaded into the index
    as an axis-aligned rectangle keyed by its own bounding box: the stream
    carries, for each obstacle, its coordinates as the box and the obstacle
    as the stored object. *)
Definition obstacle_generator (obstacles : list (list Q)) : list (list Q * list Q) :=
  map (fun obstacle => (obstacle, obstacle)) obstacles.

(** ** class ObstacleRtree *)

Module ObstacleRtree.

Record t : Type := { obs : rtree.Index }.

(** A method receives the object and hands it back with its outcome, so
    that an assignment to an attribute would show. *)
Definition method (A : Type) : Type := t -> result A * t.

Definition half_len (o : list Q) : Q := inject_Z (len o) / 2.

Definition __init__ (dim : Z) (obstacles : option (list (list Q))) : result t :=
  p <- rtree.set_dimension rtree.Property_new dim ;;
  match obstacles with
  | None => Ok {| obs := rtree.Index_new p |}
  | Some obstacles =>
      wrong_dim <- py_any (fun o => Ok (negb (Qeq_bool (half_len o) (inject_Z dim))))
                          obstacles ;;
      if wrong_dim then
        Raise (Exception "Obstacle has incorrect dimension definition")
      else
        wrong_order <-
          py_any (fun '(o, i) =>
                    lo <- py_index o i ;;
                    hi <- py_index o (py_int (inject_Z i + half_len o)) ;;
                    Ok (ge_bool lo hi))
                 (flat_map (fun o => map (pair o) (py_range (py_int (half_len o))))
                           obstacles) ;;
        if wrong_order then
          Raise (Exception "Obstacle start must be less than obstacle end")
        else
          idx <- rtree.Index_stream (obstacle_generator obstacles) p ;;
          Ok {| obs := idx |}
  end.

Definition obstacle_free (x : Point) : method bool :=
  fun self =>
    (c <- rtree.count self.(obs) x ;; Ok (c =? 0)%Z, self).

(** [all(map(f, points))]: stops at the first point on which [f] is
    false, or raises. *)
Fixpoint all_map (f : Point -> method bool) (points : list Point) : method bool :=
  fun self =>
    match points with
    | [] => (Ok true, self)
    | x :: points' =>
        match f x self with
        | (Ok true, self') => all_map f points' self'
        | (Ok false, self') => (Ok false, self')
        | (Raise e, self') => (Raise e, self')
        end
    end.

Section Helper.

(** [es_points_along_line] of rrt_algorithms.utilities.geometry, whose
    source is not among the files at hand: the sequence of points it
    yields for a segment and a resolution. *)
Variable es_points_along_line : Point -> Point -> Q -> list Point.

Definition collision_free (start end_ : Point) (r : Q) : method bool :=
  fun self =>
    let points := es_points_along_line start end_ r in
    let (coll_free, self') := all_map obstacle_free points self in
    (coll_free, self').

End Helper.

End ObstacleRtree.

(** ** Notions of the specification *)

(** Points that agree coordinate by coordinate as numbers. *)
Definition peq (a b : Point) : Prop := Forall2 Qeq a b.

(** The bounding box of an entry contains [x]: on every axis the
    coordinate lies between the minimum and the maximum, ends included. *)
Definition box_contains (e : rtree.Entry) (x : Point) : bool :=
  forallb (fun '((lo, hi), xi) => Qle_bool lo xi && Qle_bool xi hi)
          (combine (combine e.(rtree.mins) e.(rtree.maxs)) x).

(** The number of indexed rectangles whose bounding box contains [x]. *)
Definition containing (idx : rtree.Index) (x : Point) : nat :=
  length (filter (fun e => box_contains e x) idx.(rtree.entries)).

(** The point of the line through [start] and [end_] at parameter [t]. *)
Definition along (start end_ : Point) (t : Q) : Point :=
  map (fun '(s, e) => s + t * (e - s)) (combine start end_).

Definition on_segment (start end_ x : Point) : Prop :=
  exists t, 0 <= t /\ t <= 1 /\ peq x (along start end_ t).

(** The square of the Euclidean distance. *)
Definition sq_dist (a b : Point) : Q :=
  fold_right Qplus 0 (map (fun '(x, y) => (y - x) * (y - x)) (combine a b)).

(** Consecutive points are at most [r] apart. *)
Fixpoint spaced (r : Q) (points : list Point) : Prop :=
  match points with
  | x :: ((y :: _) as points') => sq_dist x y <= r * r /\ spaced r points'
  | _ => True
  end.

(** Modelled from the spec: the interface of [es_points_along_line] of
    rrt_algorithms.utilities.geometry, whose source is not among the files
    at hand.  For two points of one dimension and a positive resolution the
    helper yields a finite sequence of points along the segment, the first
    at [start], the last at [end_], consecutive ones at most the resolution
    apart. *)
Record segment_sampler (h : Point -> Point -> Q -> list Point) : Prop := {
  sampler_first : forall start end_ r,
      length start = length end_ -> 0 < r ->
      exists x rest, h start end_ r = x :: rest /\ peq x start;
  sampler_last : forall start end_ r,
      length start = length end_ -> 0 < r ->
      exists front x, h start end_ r = front ++ [x] /\ peq x end_;
  sampler_along : forall start end_ r,
      length start = length end_ -> 0 < r ->
      Forall (on_segment start end_) (h start end_ r);
  sampler_spaced : forall start end_ r,
      length start = length end_ -> 0 < r ->
      spaced r (h start end_ r)
}.

(** The least [n] with [m <= n * n]. *)
Definition ceil_sqrt (m : Z) : Z :=
  let s := Z.sqrt m in
  if (s * s =? m)%Z then s else (s + 1)%Z.

(** The least number of equal steps, none longer than [r], that cover the
    segment. *)
Definition steps (start end_ : Point) (r : Q) : nat :=
  Z.to_nat (ceil_sqrt (Qceiling (sq_dist start end_ / (r * r)))).

(** Modelled from the spec: [es_points_along_line] of
    rrt_algorithms.utilities.geometry, whose source is not among the files
    at hand.  The spec has it produce an ordered finite sequence of points
    along the segment, consecutive points at most the resolution apart, the
    first at [start] and the last at [end_]; the name says that the points
    are equally spaced.  The model takes the least number of equal steps
    that meets the resolution. *)
Definition es_points_along_line (start end_ : Point) (r : Q) : list Point :=
  let n := steps start end_ r in
  match n with
  | O => [start]
  | S _ => map (fun i => along start end_ (inject_Z (Z.of_nat i) / inject_Z (Z.of_nat n)))
               (seq 0 (S n))
  end.

(** The validity of the bounds of a search space: at least two axes, each
    a pair with its start below its end. *)
Definition valid_bounds (dimension_lengths : list (list Q)) : Prop :=
  (2 <= len dimension_lengths)%Z /\
  Forall (fun i => exists lo hi, i = [lo; hi] /\ lo < hi) dimension_lengths.

(** The validity of an obstacle in [dim] dimensions: [dim] minima followed
    by [dim] maxima, each minimum below its maximum. *)
Definition valid_obstacle (dim : Z) (o : list Q) : Prop :=
  len o = (2 * dim)%Z /\
  Forall (fun '(lo, hi) => lo < hi)
         (combine (firstn (Z.to_nat dim) o) (skipn (Z.to_nat dim) o)).

(** ** Auxiliary definitions *)

(** The two checks of [SearchSpace.__init__] on one axis. *)
Definition malformed_pair (i : list Q) : bool := negb (len i =? 2)%Z.

Definition degenerate_pair (i : list Q) : bool :=
  match i with
  | [lo; hi] => ge_bool lo hi
  | _ => false
  end.

(** The two columns of an array of pairs. *)
Definition lows (dl : list (list Q)) : list Q := map (fun i => nth 0 i 0) dl.

Definition highs (dl : list (list Q)) : list Q := map (fun i => nth 1 i 0) dl.

(** Some minimum of [o] is not below its maximum. *)
Definition misordered (dim : Z) (o : list Q) : bool :=
  existsb (fun '(lo, hi) => ge_bool lo hi)
          (combine (firstn (Z.to_nat dim) o) (skipn (Z.to_nat dim) o)).

(** The body of the ordering check of [ObstacleRtree.__init__]:
    [o[i] >= o[int(i + len(o) / 2)]]. *)
Definition order_check (oi : list Q * Z) : result bool :=
  let '(o, i) := oi in
  lo <- py_index o i ;;
  hi <- py_index o (py_int (inject_Z i + ObstacleRtree.half_len o)) ;;
  Ok (ge_bool lo hi).

(** The number of coordinates of [o] is not twice the dimension. *)
Definition wrong_length (dim : Z) (o : list Q) : bool :=
  negb (len o =? 2 * dim)%Z.

(** The entry under which a valid obstacle is stored. *)
Definition entry_of (dim : Z) (o : list Q) : rtree.Entry :=
  {| rtree.mins := firstn (Z.to_nat dim) o;
     rtree.maxs := skipn (Z.to_nat dim) o;
     rtree.obj := o |}.

(** The object that holds one entry per obstacle. *)
Definition index_of (dim : Z) (obstacles : list (list Q)) : ObstacleRtree.t :=
  {| ObstacleRtree.obs :=
       {| rtree.properties := {| rtree.dimension := dim |};
          rtree.entries := map (entry_of dim) obstacles |} |}.

(** On some axis the minimum of [o] is not below its maximum. *)
Definition out_of_order (dim : Z) (o : list Q) : Prop :=
  Exists (fun '(lo, hi) => hi <= lo)
         (combine (firstn (Z.to_nat dim) o) (skipn (Z.to_nat dim) o)).

(** The scenario of the specification: dimension 2, one obstacle with
    minima (2, 2) and maxima (4, 4). *)
Definition scenario_obstacles : list (list Q) := [[2; 2; 4; 4]].

Definition scenario : ObstacleRtree.t := index_of 2 scenario_obstacles.

(** Predicates that accept everything. *)
Definition always_free : Point -> bool := fun _ => true.

Definition always_clear : Point -> Point -> Q -> bool := fun _ _ _ => true.

(** A space of 10 by 5 that rejects the points whose first coordinate is
    below 5. *)
Definition right_half : Point -> bool :=
  fun x => match x with a :: _ => Qle_bool 5 a | [] => false end.

Definition room_bounds : list (list Q) := [[0; 10]; [0; 5]].

Definition room (free : Point -> bool) : SearchSpace.t :=
  {| SearchSpace.dimensions := 2;
     SearchSpace.dimension_lengths := room_bounds;
     SearchSpace.obstacle_free := free;
     SearchSpace.collision_free := always_clear |}.

(** A random source that delivers 1/4 twice and 3/4 from then on. *)
Definition late : RandomState :=
  {| variates := fun n => if (n <? 2)%nat then 1 # 4 else 3 # 4; position := 0 |}.

(** An obstacle across the middle of the segment from (0, 0) to (10, 0). *)
Definition wall_obstacles : list (list Q) := [[4; -1 # 1; 6; 1]].

Definition wall : ObstacleRtree.t := index_of 2 wall_obstacles.

(** No rectangle of the index contains [x]. *)
Definition clear (self : ObstacleRtree.t) (x : Point) : bool :=
  (containing self.(ObstacleRtree.obs) x =? 0)%nat.

(** The point [x] lies in the closed box of the obstacle [o]: on every
    axis its coordinate is between the minimum and the maximum of [o]. *)
Definition inside (dim : Z) (o : list Q) (x : Point) : Prop :=
  forall i lo hi xi,
    nth_error o i = Some lo -> nth_error o (Z.to_nat dim + i) = Some hi ->
    nth_error x i = Some xi -> lo <= xi /\ xi <= hi.

(** A helper that yields a clear point, a blocked point and then a
    malformed one, whatever the segment. *)
Definition three_points : Point -> Point -> Q -> list Point :=
  fun _ _ _ => [[0; 0]; [3; 3]; [1]].

(** A predicate that rejects everything. *)
Definition never_free : Point -> bool := fun _ => false.

(** The random source [g] after [k] more variates. *)
Definition skip (k : nat) (g : RandomState) : RandomState :=
  {| variates := g.(variates); position := (g.(position) + k)%nat |}.

(** * Properties *)

(** ** Python built-ins *)

Lemma py_any_pure (A : Type) (p : A -> bool) (l : list A) :
  py_any (fun a => Ok (p a)) l = Ok (existsb p l).
Proof.
  induction l as [|a l IH]; simpl; [reflexivity|].
  destruct (p a); simpl; [reflexivity | exact IH].
Qed.

Lemma py_any_ext (A : Type) (f g : A -> result bool) (l : list A) :
  Forall (fun a => f a = g a) l -> py_any f l = py_any g l.
Proof.
  induction 1 as [|a l Ha _ IH]; simpl; [reflexivity|].
  rewrite Ha, IH. reflexivity.
Qed.

Lemma existsb_Exists (A : Type) (p : A -> bool) (l : list A) :
  existsb p l = true <-> Exists (fun a => p a = true) l.
Proof.
  rewrite existsb_exists, Exists_exists. reflexivity.
Qed.

Lemma existsb_false_Forall (A : Type) (p : A -> bool) (l : list A) :
  existsb p l = false <-> Forall (fun a => p a = false) l.
Proof.
  induction l as [|a l IH]; simpl.
  - split; intros; [constructor | reflexivity].
  - rewrite orb_false_iff, IH. split.
    + intros [H1 H2]. constructor; assumption.
    + intros H. inversion H; subst. split; assumption.
Qed.

Lemma Exists_equiv (A : Type) (P P' : A -> Prop) (l : list A) :
  (forall a, P a <-> P' a) -> Exists P l <-> Exists P' l.
Proof.
  intros H. split; apply Exists_impl; intros a; apply H.
Qed.

Lemma Forall_equiv (A : Type) (P P' : A -> Prop) (l : list A) :
  (forall a, P a <-> P' a) -> Forall P l <-> Forall P' l.
Proof.
  intros H. split; apply Forall_impl; intros a; apply H.
Qed.

Lemma len_nonneg {A : Type} (l : list A) : (0 <= len l)%Z.
Proof. unfold len. lia. Qed.

Lemma len_two {A : Type} (l : list A) :
  len l = 2%Z <-> exists a b, l = [a; b].
Proof.
  unfold len. split.
  - destruct l as [|a [|b [|c l]]]; simpl; intros H; try lia.
    exists a, b. reflexivity.
  - intros (a & b & ->). reflexivity.
Qed.

Lemma ge_bool_iff (a b : Q) : ge_bool a b = true <-> b <= a.
Proof. unfold ge_bool. apply Qle_bool_iff. Qed.

Lemma ge_bool_false_iff (a b : Q) : ge_bool a b = false <-> a < b.
Proof.
  unfold ge_bool. split; intros H.
  - apply Qnot_le_lt. intros Hle. apply Qle_bool_iff in Hle. congruence.
  - destruct (Qle_bool b a) eqn:E; [|reflexivity].
    apply Qle_bool_iff in E. exfalso. exact (Qlt_not_le _ _ H E).
Qed.

(** ** SearchSpace: construction *)

Lemma degenerate_check (l : list (list Q)) :
  existsb malformed_pair l = false ->
  py_any (fun i => i0 <- py_index i 0 ;; i1 <- py_index i 1 ;; Ok (ge_bool i0 i1)) l
  = Ok (existsb degenerate_pair l).
Proof.
  intros H. rewrite <- py_any_pure. apply py_any_ext.
  apply existsb_false_Forall in H. revert H. apply Forall_impl.
  intros i Hi. unfold malformed_pair in Hi. apply negb_false_iff in Hi.
  apply Z.eqb_eq in Hi. apply len_two in Hi. destruct Hi as (a & b & ->).
  reflexivity.
Qed.

Lemma SearchSpace_init_eq (dl : list (list Q)) (free : Point -> bool)
    (coll : Point -> Point -> Q -> bool) :
  SearchSpace.__init__ dl free coll =
  if (len dl <? 2)%Z then Raise (Exception "Must have at least 2 dimensions")
  else if existsb malformed_pair dl then
    Raise (Exception "Dimensions can only have a start and end")
  else if existsb degenerate_pair dl then
    Raise (Exception "Dimension start must be less than dimension end")
  else Ok {| SearchSpace.dimensions := len dl;
             SearchSpace.dimension_lengths := dl;
             SearchSpace.obstacle_free := free;
             SearchSpace.collision_free := coll |}.
Proof.
  unfold SearchSpace.__init__.
  destruct (len dl <? 2)%Z; [reflexivity|].
  change (fun i : list Q => Ok (negb (len i =? 2)%Z))
    with (fun i : list Q => Ok (malformed_pair i)).
  rewrite py_any_pure. simpl.
  destruct (existsb malformed_pair dl) eqn:E; [reflexivity|].
  rewrite (degenerate_check _ E). simpl.
  destruct (existsb degenerate_pair dl); reflexivity.
Qed.

Lemma malformed_Exists (dl : list (list Q)) :
  existsb malformed_pair dl = true <-> Exists (fun i => len i <> 2%Z) dl.
Proof.
  rewrite existsb_Exists. apply Exists_equiv. intros i.
  unfold malformed_pair. rewrite negb_true_iff, Z.eqb_neq. reflexivity.
Qed.

Lemma malformed_Forall (dl : list (list Q)) :
  existsb malformed_pair dl = false <-> Forall (fun i => len i = 2%Z) dl.
Proof.
  rewrite existsb_false_Forall. apply Forall_equiv. intros i.
  unfold malformed_pair. rewrite negb_false_iff, Z.eqb_eq. reflexivity.
Qed.

Lemma degenerate_Exists (dl : list (list Q)) :
  existsb degenerate_pair dl = true <->
  Exists (fun i => exists lo hi, i = [lo; hi] /\ hi <= lo) dl.
Proof.
  rewrite existsb_Exists. apply Exists_equiv. intros i. split.
  - destruct i as [|lo [|hi [|c i]]]; simpl; try discriminate.
    intros H. apply ge_bool_iff in H. exists lo, hi. auto.
  - intros (lo & hi & -> & H). simpl. apply ge_bool_iff. exact H.
Qed.

Lemma valid_bounds_iff (dl : list (list Q)) :
  valid_bounds dl <->
  (len dl <? 2)%Z = false /\ existsb malformed_pair dl = false /\
  existsb degenerate_pair dl = false.
Proof.
  unfold valid_bounds. rewrite Z.ltb_ge, !existsb_false_Forall. split.
  - intros [H2 H]. split; [exact H2|]. split; revert H; apply Forall_impl;
      intros i (lo & hi & -> & Hlt); [reflexivity|].
    simpl. apply ge_bool_false_iff. exact Hlt.
  - intros (H2 & Hm & Hd). split; [exact H2|].
    rewrite Forall_forall in *. intros i Hi.
    specialize (Hm i Hi). specialize (Hd i Hi).
    unfold malformed_pair in Hm. apply negb_false_iff, Z.eqb_eq, len_two in Hm.
    destruct Hm as (lo & hi & ->). exists lo, hi. split; [reflexivity|].
    simpl in Hd. apply ge_bool_false_iff. exact Hd.
Qed.

(** C5.  Construction of a search space fails exactly when its bounds are
    invalid, and the message tells which check failed: fewer than two axes;
    otherwise some axis that is not a pair; otherwise some pair whose start
    is not below its end.  The checks run in this order, so the first
    violation found is the one reported.  On valid bounds construction
    succeeds and the object holds the bounds (and both predicates) as they
    were given. *)
Theorem SearchSpace_init_spec (dl : list (list Q)) (free : Point -> bool)
    (coll : Point -> Point -> Q -> bool) :
  let r := SearchSpace.__init__ dl free coll in
  (r = Raise (Exception "Must have at least 2 dimensions") <-> (len dl < 2)%Z) /\
  (r = Raise (Exception "Dimensions can only have a start and end") <->
     (2 <= len dl)%Z /\ Exists (fun i => len i <> 2%Z) dl) /\
  (r = Raise (Exception "Dimension start must be less than dimension end") <->
     (2 <= len dl)%Z /\ Forall (fun i => len i = 2%Z) dl /\
     Exists (fun i => exists lo hi, i = [lo; hi] /\ hi <= lo) dl) /\
  ((exists e, r = Raise e) <-> ~ valid_bounds dl) /\
  (valid_bounds dl <->
     r = Ok {| SearchSpace.dimensions := len dl;
               SearchSpace.dimension_lengths := dl;
               SearchSpace.obstacle_free := free;
               SearchSpace.collision_free := coll |}) /\
  (forall self, r = Ok self -> self.(SearchSpace.dimension_lengths) = dl).
Proof.
  intros r. subst r. rewrite SearchSpace_init_eq.
  rewrite valid_bounds_iff, <- malformed_Exists, <- malformed_Forall,
    <- degenerate_Exists, <- Z.ltb_lt, <- Z.ltb_ge.
  destruct (len dl <? 2)%Z; [|destruct (existsb malformed_pair dl);
    [|destruct (existsb degenerate_pair dl)]];
    repeat split;
    repeat match goal with
           | |- _ -> _ => intro
           | |- ~ _ => intro
           | H : _ /\ _ |- _ => destruct H
           | H : exists _, _ |- _ => destruct H
           | H : Ok _ = Ok _ |- _ => inversion H; subst; clear H
           | |- exists _, Raise ?e = Raise _ => exists e; reflexivity
           | H : ~ _ |- _ => exfalso; apply H; clear H
           end;
    try discriminate; try congruence; try reflexivity; auto.
Qed.

(** ** SearchSpace: sampling *)

Lemma column_pairs (dl : list (list Q)) :
  Forall (fun i => len i = 2%Z) dl ->
  column dl 0 = Ok (lows dl) /\ column dl 1 = Ok (highs dl).
Proof.
  induction 1 as [|i dl Hi _ [IH0 IH1]]; simpl; [split; reflexivity|].
  apply len_two in Hi. destruct Hi as (lo & hi & ->).
  rewrite IH0, IH1. split; reflexivity.
Qed.

Lemma SearchSpace_init_ok (dl : list (list Q)) (free : Point -> bool)
    (coll : Point -> Point -> Q -> bool) (self : SearchSpace.t) :
  SearchSpace.__init__ dl free coll = Ok self ->
  valid_bounds dl /\
  self = {| SearchSpace.dimensions := len dl;
            SearchSpace.dimension_lengths := dl;
            SearchSpace.obstacle_free := free;
            SearchSpace.collision_free := coll |}.
Proof.
  rewrite SearchSpace_init_eq, valid_bounds_iff.
  destruct (len dl <? 2)%Z; [discriminate|].
  destruct (existsb malformed_pair dl); [discriminate|].
  destruct (existsb degenerate_pair dl); [discriminate|].
  intros H. injection H as <-. auto.
Qed.

Lemma sample_valid (dl : list (list Q)) (free : Point -> bool)
    (coll : Point -> Point -> Q -> bool) (self : SearchSpace.t) (g : RandomState) :
  SearchSpace.__init__ dl free coll = Ok self ->
  SearchSpace.sample self g = Ok (uniform (lows dl) (highs dl) g).
Proof.
  intros H. apply SearchSpace_init_ok in H. destruct H as [[_ Hv] ->].
  unfold SearchSpace.sample. simpl.
  destruct (column_pairs dl) as [E0 E1].
  { revert Hv. apply Forall_impl. intros i (lo & hi & -> & _). reflexivity. }
  rewrite E0, E1. reflexivity.
Qed.

Lemma uniform_spec (low high : list Q) (g : RandomState) :
  length low = length high ->
  let (xs, g') := uniform low high g in
  length xs = length low /\
  g' = {| variates := g.(variates); position := (g.(position) + length low)%nat |} /\
  forall k lo hi, nth_error low k = Some lo -> nth_error high k = Some hi ->
    nth_error xs k = Some (lo + (hi - lo) * g.(variates) (g.(position) + k)%nat).
Proof.
  revert high g. induction low as [|l low IH]; intros [|h high] g Hlen;
    simpl in Hlen; try discriminate.
  - simpl. split; [reflexivity|]. split.
    + destruct g as [v p]. simpl. f_equal. lia.
    + intros [|k]; discriminate.
  - injection Hlen as Hlen. simpl.
    specialize (IH high {| variates := variates g; position := S (position g) |} Hlen).
    destruct (uniform low high _) as [xs g2]. simpl in IH.
    destruct IH as (IHl & IHg & IHn). split; [simpl; congruence|]. split.
    + rewrite IHg. f_equal. lia.
    + intros [|k] lo hi Hlo Hhi; simpl in *.
      * injection Hlo as <-. injection Hhi as <-.
        rewrite Nat.add_0_r. reflexivity.
      * rewrite (IHn k lo hi Hlo Hhi). do 4 f_equal. lia.
Qed.

Lemma affine_in_range (lo hi u : Q) :
  lo < hi -> 0 <= u -> u < 1 ->
  lo <= lo + (hi - lo) * u /\ lo + (hi - lo) * u <= hi.
Proof.
  intros Hlt H0 H1.
  assert (Ha : 0 <= (hi - lo) * u).
  { apply Qmult_le_0_compat; lra. }
  assert (Hb : 0 <= (hi - lo) * (1 - u)).
  { apply Qmult_le_0_compat; lra. }
  split; lra.
Qed.

(** C3.  On a validly constructed search space [sample] returns a point
    with one coordinate per axis; the coordinate on axis [k] is the affine
    image [low + (high - low) * u] of a unit variate of its own, the one
    that follows those of the earlier axes, and lies between the bounds of
    that axis, ends included.  (That the variates are uniform and
    independent is the contract of the random source, not something the
    model can state.) *)
Theorem sample_in_bounds (dl : list (list Q)) (free : Point -> bool)
    (coll : Point -> Point -> Q -> bool) (self : SearchSpace.t) (g : RandomState) :
  SearchSpace.__init__ dl free coll = Ok self ->
  (forall n, 0 <= g.(variates) n /\ g.(variates) n < 1) ->
  exists x g',
    SearchSpace.sample self g = Ok (x, g') /\
    len x = self.(SearchSpace.dimensions) /\
    g' = {| variates := g.(variates);
            position := (g.(position) + length dl)%nat |} /\
    forall k lo hi, nth_error dl k = Some [lo; hi] ->
      exists xk, nth_error x k = Some xk /\
        xk = lo + (hi - lo) * g.(variates) (g.(position) + k)%nat /\
        lo <= xk /\ xk <= hi.
Proof.
  intros Hinit Hu. rewrite (sample_valid _ _ _ _ g Hinit).
  apply SearchSpace_init_ok in Hinit. destruct Hinit as [[_ Hv] ->]. simpl.
  assert (Hlen : length (lows dl) = length (highs dl)).
  { unfold lows, highs. rewrite !length_map. reflexivity. }
  pose proof (uniform_spec (lows dl) (highs dl) g Hlen) as Hs.
  destruct (uniform (lows dl) (highs dl) g) as [x g'].
  destruct Hs as (Hx & Hg & Hn). exists x, g'.
  unfold lows in Hx, Hg. rewrite length_map in Hx, Hg.
  split; [reflexivity|]. split; [unfold len; congruence|].
  split; [exact Hg|].
  intros k lo hi Hk. eexists. split.
  - apply Hn; unfold lows, highs; rewrite nth_error_map, Hk; reflexivity.
  - split; [reflexivity|].
    rewrite Forall_forall in Hv. apply nth_error_In in Hk.
    destruct (Hv _ Hk) as (lo' & hi' & E & Hlt). injection E as <- <-.
    apply affine_in_range; [exact Hlt | apply Hu | apply Hu].
Qed.

(** ** SearchSpace: rejection sampling *)

Lemma sample_free_first (self : SearchSpace.t) (k : nat) :
  forall g x g',
    SearchSpace.draw self g k = Ok (x, g') ->
    self.(SearchSpace.obstacle_free) x = true ->
    (forall j y g'', (j < k)%nat -> SearchSpace.draw self g j = Ok (y, g'') ->
                     self.(SearchSpace.obstacle_free) y = false) ->
    forall fuel, (k < fuel)%nat ->
      SearchSpace.sample_free fuel self g = Some (Ok (x, g')).
Proof.
  induction k as [|k IH]; intros g x g' Hd Hfree Hbefore fuel Hfuel;
    (destruct fuel as [|fuel]; [lia|]); simpl in *.
  - rewrite Hd, Hfree. reflexivity.
  - destruct (SearchSpace.sample self g) as [[y g1]|e] eqn:Es; [|discriminate].
    simpl in Hd.
    rewrite (Hbefore 0%nat y g1 ltac:(lia) Es).
    apply (IH g1 x g' Hd Hfree); [|lia].
    intros j z g2 Hj Hz. apply (Hbefore (S j) z g2); [lia|].
    simpl. rewrite Es. exact Hz.
Qed.

Lemma sample_free_sound (self : SearchSpace.t) (fuel : nat) :
  forall g x g',
    SearchSpace.sample_free fuel self g = Some (Ok (x, g')) ->
    self.(SearchSpace.obstacle_free) x = true /\
    exists k, (k < fuel)%nat /\ SearchSpace.draw self g k = Ok (x, g') /\
      forall j, (j < k)%nat ->
        exists y g'', SearchSpace.draw self g j = Ok (y, g'') /\
                      self.(SearchSpace.obstacle_free) y = false.
Proof.
  induction fuel as [|fuel IH]; intros g x g' H; simpl in H; [discriminate|].
  destruct (SearchSpace.sample self g) as [[y g1]|e] eqn:Es; [|discriminate].
  destruct (SearchSpace.obstacle_free self y) eqn:Ey.
  - injection H as <- <-. split; [exact Ey|]. exists 0%nat.
    split; [lia|]. split; [exact Es|]. intros j Hj. lia.
  - destruct (IH g1 x g' H) as (Hx & k & Hk & Hd & Hb).
    split; [exact Hx|]. exists (S k). split; [lia|]. split.
    + simpl. rewrite Es. exact Hd.
    + intros [|j] Hj.
      * exists y, g1. split; [exact Es | exact Ey].
      * destruct (Hb j ltac:(lia)) as (z & g2 & Hz & Ez).
        exists z, g2. split; [|exact Ez]. simpl. rewrite Es. exact Hz.
Qed.

Lemma sample_free_no_raise (dl : list (list Q)) (free : Point -> bool)
    (coll : Point -> Point -> Q -> bool) (self : SearchSpace.t) :
  SearchSpace.__init__ dl free coll = Ok self ->
  forall fuel g e, SearchSpace.sample_free fuel self g <> Some (Raise e).
Proof.
  intros Hinit. induction fuel as [|fuel IH]; intros g e; simpl; [discriminate|].
  rewrite (sample_valid _ _ _ _ g Hinit).
  destruct (uniform (lows dl) (highs dl) g) as [x g1].
  destruct (SearchSpace.obstacle_free self x); [discriminate | apply IH].
Qed.

Lemma sample_free_exhausted (self : SearchSpace.t) (fuel : nat) :
  forall g,
    SearchSpace.sample_free fuel self g = None ->
    forall j, (j < fuel)%nat ->
      exists y g'', SearchSpace.draw self g j = Ok (y, g'') /\
                    self.(SearchSpace.obstacle_free) y = false.
Proof.
  induction fuel as [|fuel IH]; intros g H j Hj; [lia|]. simpl in H.
  destruct (SearchSpace.sample self g) as [[y g1]|e] eqn:Es; [|discriminate].
  destruct (SearchSpace.obstacle_free self y) eqn:Ey; [discriminate|].
  destruct j as [|j].
  - exists y, g1. split; [exact Es | exact Ey].
  - destruct (IH g1 H j ltac:(lia)) as (z & g2 & Hz & Ez).
    exists z, g2. split; [|exact Ez]. simpl. rewrite Es. exact Hz.
Qed.

(** C4.  [sample_free] is a rejection loop over the successive draws of
    [sample]: on a validly constructed space it never raises; whatever it
    returns is a draw on which the predicate holds, every earlier draw
    having been rejected; and if the predicate first holds on draw [k],
    however large [k] is, the loop returns that draw once it is given more
    than [k] iterations.  When the model runs out of iterations without a
    result, every draw so far was rejected. *)
Theorem sample_free_spec (dl : list (list Q)) (free : Point -> bool)
    (coll : Point -> Point -> Q -> bool) (self : SearchSpace.t) (g : RandomState) :
  SearchSpace.__init__ dl free coll = Ok self ->
  (forall fuel x g',
      SearchSpace.sample_free fuel self g = Some (Ok (x, g')) ->
      free x = true /\
      exists k, (k < fuel)%nat /\ SearchSpace.draw self g k = Ok (x, g') /\
        forall j, (j < k)%nat ->
          exists y g'', SearchSpace.draw self g j = Ok (y, g'') /\ free y = false) /\
  (forall k x g',
      SearchSpace.draw self g k = Ok (x, g') ->
      free x = true ->
      (forall j y g'', (j < k)%nat -> SearchSpace.draw self g j = Ok (y, g'') ->
                       free y = false) ->
      forall fuel, (k < fuel)%nat ->
        SearchSpace.sample_free fuel self g = Some (Ok (x, g'))) /\
  (forall fuel e, SearchSpace.sample_free fuel self g <> Some (Raise e)) /\
  (forall fuel,
      SearchSpace.sample_free fuel self g = None ->
      forall j, (j < fuel)%nat ->
        exists y g'', SearchSpace.draw self g j = Ok (y, g'') /\ free y = false) /\
  (forall k, exists x g', SearchSpace.draw self g k = Ok (x, g')).
Proof.
  intros Hinit.
  assert (Hfree : self.(SearchSpace.obstacle_free) = free).
  { apply SearchSpace_init_ok in Hinit. destruct Hinit as [_ ->]. reflexivity. }
  rewrite <- Hfree. repeat split.
  - eapply sample_free_sound; eassumption.
  - eapply sample_free_sound; eassumption.
  - intros k x g'. apply sample_free_first.
  - intros fuel e. apply (sample_free_no_raise _ _ _ _ Hinit).
  - intros fuel. apply sample_free_exhausted.
  - intros k. revert g. induction k as [|k IH]; intros g; simpl;
      rewrite (sample_valid _ _ _ _ g Hinit);
      destruct (uniform (lows dl) (highs dl) g) as [x g1].
    + exists x, g1. reflexivity.
    + simpl. apply IH.
Qed.

(** ** Arithmetic of the obstacle checks *)

Lemma half_len_num (o : list Q) :
  ObstacleRtree.half_len o = (len o * 1 # 2).
Proof. reflexivity. Qed.

Lemma half_len_eqb (o : list Q) (dim : Z) :
  Qeq_bool (ObstacleRtree.half_len o) (inject_Z dim) = (len o =? 2 * dim)%Z.
Proof.
  rewrite half_len_num. unfold Qeq_bool, inject_Z. cbn [Qnum Qden].
  destruct (len o =? 2 * dim)%Z eqn:E.
  - apply Z.eqb_eq in E. apply Z.eqb_eq. lia.
  - apply Z.eqb_neq in E. apply Z.eqb_neq. lia.
Qed.

Lemma py_int_half_len (o : list Q) (dim : Z) :
  len o = (2 * dim)%Z -> py_int (ObstacleRtree.half_len o) = dim.
Proof.
  intros H. rewrite half_len_num. unfold py_int, Qle_bool, Qfloor.
  cbn [Qnum Qden].
  pose proof (len_nonneg o) as Hn.
  replace (0 * 2 <=? len o * 1 * 1)%Z with true
    by (symmetry; apply Z.leb_le; lia).
  rewrite H. replace (2 * dim * 1)%Z with (dim * 2)%Z by lia.
  apply Z.div_mul. lia.
Qed.

Lemma py_int_shift (o : list Q) (dim i : Z) :
  len o = (2 * dim)%Z -> (0 <= i)%Z ->
  py_int (inject_Z i + ObstacleRtree.half_len o) = (i + dim)%Z.
Proof.
  intros H Hi. rewrite half_len_num.
  unfold py_int, Qle_bool, Qfloor, Qplus, inject_Z. cbn [Qnum Qden].
  pose proof (len_nonneg o) as Hn.
  change (1 * 2)%positive with 2%positive.
  replace (0 * 2 <=? (i * 2 + len o * 1 * 1) * 1)%Z with true
    by (symmetry; apply Z.leb_le; lia).
  rewrite H. replace (i * 2 + 2 * dim * 1 * 1)%Z with ((i + dim) * 2)%Z by lia.
  apply Z.div_mul. lia.
Qed.

Lemma py_index_nat {A : Type} (l : list A) (k : nat) (a : A) :
  nth_error l k = Some a -> py_index l (Z.of_nat k) = Ok a.
Proof.
  intros H. unfold py_index. cbv zeta.
  assert (E : (Z.of_nat k <? 0)%Z = false) by (apply Z.ltb_ge; lia).
  rewrite !E, Nat2Z.id, H. reflexivity.
Qed.

Lemma py_any_app {A : Type} (f : A -> result bool) (l1 l2 : list A) :
  py_any f (l1 ++ l2) =
  (b <- py_any f l1 ;; if b then Ok true else py_any f l2).
Proof.
  induction l1 as [|a l1 IH]; simpl; [reflexivity|].
  destruct (f a) as [[|]|e]; simpl; [reflexivity | exact IH | reflexivity].
Qed.

Lemma py_any_map {A B : Type} (f : B -> result bool) (h : A -> B) (l : list A) :
  py_any f (map h l) = py_any (fun a => f (h a)) l.
Proof.
  induction l as [|a l IH]; simpl; [reflexivity|]. rewrite IH. reflexivity.
Qed.

Lemma existsb_map_seq (q : nat -> bool) (n : nat) :
  existsb q (seq 1 n) = existsb (fun i => q (S i)) (seq 0 n).
Proof.
  rewrite <- seq_shift. induction (seq 0 n) as [|i l IH]; simpl;
    [reflexivity | rewrite IH; reflexivity].
Qed.

Lemma existsb_indices (a b : list Q) :
  length a = length b ->
  existsb (fun i => ge_bool (nth i a 0) (nth i b 0)) (seq 0 (length a)) =
  existsb (fun '(lo, hi) => ge_bool lo hi) (combine a b).
Proof.
  revert b. induction a as [|x a IH]; intros [|y b] H; simpl in H;
    try discriminate; [reflexivity|].
  injection H as H. cbn [length seq existsb combine nth].
  rewrite existsb_map_seq. cbn [nth]. rewrite (IH b H). reflexivity.
Qed.

Lemma halves (o : list Q) (dim : Z) :
  len o = (2 * dim)%Z ->
  let n := Z.to_nat dim in
  length (firstn n o) = n /\ length (skipn n o) = n /\
  o = firstn n o ++ skipn n o.
Proof.
  intros H n. unfold len in H.
  rewrite length_firstn, length_skipn, firstn_skipn.
  repeat split; lia.
Qed.

Lemma order_check_at (o : list Q) (dim : Z) (i : nat) :
  len o = (2 * dim)%Z -> (i < Z.to_nat dim)%nat ->
  order_check (o, Z.of_nat i) =
  Ok (ge_bool (nth i (firstn (Z.to_nat dim) o) 0)
              (nth i (skipn (Z.to_nat dim) o) 0)).
Proof.
  intros H Hi. destruct (halves o dim H) as (Ha & Hb & Ho).
  set (a := firstn (Z.to_nat dim) o) in *.
  set (b := skipn (Z.to_nat dim) o) in *.
  unfold order_check.
  rewrite (py_int_shift o dim (Z.of_nat i) H) by lia.
  replace (Z.of_nat i + dim)%Z with (Z.of_nat (Z.to_nat dim + i)) by lia.
  rewrite (py_index_nat o i (nth i a 0)).
  2:{ rewrite Ho, nth_error_app1 by lia. apply nth_error_nth'. lia. }
  rewrite (py_index_nat o (Z.to_nat dim + i) (nth i b 0)).
  2:{ rewrite Ho, nth_error_app2 by lia.
      replace (Z.to_nat dim + i - length a)%nat with i by lia.
      apply nth_error_nth'. lia. }
  reflexivity.
Qed.

Lemma order_check_obstacle (o : list Q) (dim : Z) :
  len o = (2 * dim)%Z ->
  py_any order_check (map (pair o) (py_range (py_int (ObstacleRtree.half_len o))))
  = Ok (misordered dim o).
Proof.
  intros H. rewrite (py_int_half_len o dim H). unfold py_range, misordered.
  rewrite !py_any_map.
  destruct (halves o dim H) as (Ha & Hb & _).
  rewrite <- existsb_indices by congruence. rewrite Ha.
  rewrite <- py_any_pure. apply py_any_ext.
  apply Forall_forall. intros i Hi. apply in_seq in Hi.
  apply order_check_at; [exact H | lia].
Qed.

Lemma order_check_all (obstacles : list (list Q)) (dim : Z) :
  Forall (fun o => len o = (2 * dim)%Z) obstacles ->
  py_any order_check
    (flat_map (fun o => map (pair o) (py_range (py_int (ObstacleRtree.half_len o))))
              obstacles)
  = Ok (existsb (misordered dim) obstacles).
Proof.
  induction 1 as [|o l Ho _ IH]; simpl; [reflexivity|].
  rewrite py_any_app, (order_check_obstacle o dim Ho), IH. simpl.
  destruct (misordered dim o); reflexivity.
Qed.

(** ** ObstacleRtree: construction *)

Lemma ordered_le (l : list (Q * Q)) :
  existsb (fun '(lo, hi) => ge_bool lo hi) l = false ->
  forallb (fun '(a, b) => Qle_bool a b) l = true.
Proof.
  induction l as [|[lo hi] l IH]; simpl; [reflexivity|].
  intros H. apply orb_false_iff in H. destruct H as [H1 H2].
  rewrite (IH H2), andb_true_r. apply ge_bool_false_iff in H1.
  apply Qle_bool_iff. apply Qlt_le_weak. exact H1.
Qed.

Lemma box_of_obstacle (dim : Z) (o : list Q) :
  (0 < dim)%Z -> wrong_length dim o = false -> misordered dim o = false ->
  rtree.get_coordinate_pointers {| rtree.dimension := dim |} o =
  Ok (firstn (Z.to_nat dim) o, skipn (Z.to_nat dim) o).
Proof.
  intros Hd Hl Hm. unfold wrong_length in Hl.
  apply negb_false_iff, Z.eqb_eq in Hl.
  unfold rtree.get_coordinate_pointers. cbn [rtree.dimension].
  replace (len o =? dim)%Z with false by (symmetry; apply Z.eqb_neq; lia).
  replace (len o =? dim * 2)%Z with true by (symmetry; apply Z.eqb_eq; lia).
  cbn [negb]. rewrite (ordered_le _ Hm). reflexivity.
Qed.

Lemma load_obstacles (dim : Z) (obstacles : list (list Q)) :
  (0 < dim)%Z ->
  existsb (wrong_length dim) obstacles = false ->
  existsb (misordered dim) obstacles = false ->
  rtree.load {| rtree.dimension := dim |} (obstacle_generator obstacles) =
  Ok (map (entry_of dim) obstacles).
Proof.
  intros Hd. unfold obstacle_generator.
  induction obstacles as [|o l IH]; [reflexivity|].
  cbn [existsb map rtree.load]. intros Hl Hm. apply orb_false_iff in Hl, Hm.
  destruct Hl as [Hl1 Hl2], Hm as [Hm1 Hm2].
  rewrite (box_of_obstacle dim o Hd Hl1 Hm1), (IH Hl2 Hm2). reflexivity.
Qed.

Lemma ObstacleRtree_init_eq (dim : Z) (obstacles : list (list Q)) :
  (0 < dim)%Z ->
  ObstacleRtree.__init__ dim (Some obstacles) =
  if existsb (wrong_length dim) obstacles then
    Raise (Exception "Obstacle has incorrect dimension definition")
  else if existsb (misordered dim) obstacles then
    Raise (Exception "Obstacle start must be less than obstacle end")
  else Ok (index_of dim obstacles).
Proof.
  intros Hd. unfold ObstacleRtree.__init__, rtree.set_dimension.
  replace (dim <=? 0)%Z with false by (symmetry; apply Z.leb_gt; lia).
  cbn [bind].
  rewrite (py_any_ext _ _ (fun o => Ok (wrong_length dim o))).
  2:{ apply Forall_forall. intros o _. unfold wrong_length.
      rewrite half_len_eqb. reflexivity. }
  rewrite py_any_pure. cbn [bind].
  destruct (existsb (wrong_length dim) obstacles) eqn:El; [reflexivity|].
  change (fun '(o, i) =>
            lo <- py_index o i ;;
            hi <- py_index o (py_int (inject_Z i + ObstacleRtree.half_len o)) ;;
            Ok (ge_bool lo hi)) with order_check.
  rewrite (order_check_all obstacles dim).
  2:{ apply existsb_false_Forall in El. revert El. apply Forall_impl.
      intros o Ho. unfold wrong_length in Ho.
      apply negb_false_iff, Z.eqb_eq in Ho. exact Ho. }
  cbn [bind].
  destruct (existsb (misordered dim) obstacles) eqn:Em; [reflexivity|].
  unfold rtree.Index_stream. rewrite (load_obstacles dim obstacles Hd El Em).
  reflexivity.
Qed.

Lemma wrong_length_Exists (dim : Z) (obstacles : list (list Q)) :
  existsb (wrong_length dim) obstacles = true <->
  Exists (fun o => len o <> (2 * dim)%Z) obstacles.
Proof.
  rewrite existsb_Exists. apply Exists_equiv. intros o.
  unfold wrong_length. rewrite negb_true_iff, Z.eqb_neq. reflexivity.
Qed.

Lemma wrong_length_Forall (dim : Z) (obstacles : list (list Q)) :
  existsb (wrong_length dim) obstacles = false <->
  Forall (fun o => len o = (2 * dim)%Z) obstacles.
Proof.
  rewrite existsb_false_Forall. apply Forall_equiv. intros o.
  unfold wrong_length. rewrite negb_false_iff, Z.eqb_eq. reflexivity.
Qed.

Lemma misordered_Exists (dim : Z) (obstacles : list (list Q)) :
  existsb (misordered dim) obstacles = true <->
  Exists (out_of_order dim) obstacles.
Proof.
  rewrite existsb_Exists. apply Exists_equiv. intros o.
  unfold misordered, out_of_order. rewrite existsb_Exists.
  apply Exists_equiv. intros [lo hi]. apply ge_bool_iff.
Qed.

Lemma valid_obstacle_iff (dim : Z) (o : list Q) :
  valid_obstacle dim o <-> wrong_length dim o = false /\ misordered dim o = false.
Proof.
  unfold valid_obstacle, wrong_length, misordered.
  rewrite negb_false_iff, Z.eqb_eq, existsb_false_Forall.
  apply and_iff_compat_l. apply Forall_equiv. intros [lo hi].
  symmetry. apply ge_bool_false_iff.
Qed.

Lemma valid_obstacles_iff (dim : Z) (obstacles : list (list Q)) :
  Forall (valid_obstacle dim) obstacles <->
  existsb (wrong_length dim) obstacles = false /\
  existsb (misordered dim) obstacles = false.
Proof.
  rewrite !existsb_false_Forall, !Forall_forall. split.
  - intros H. split; intros o Ho; apply (valid_obstacle_iff dim o), H, Ho.
  - intros [H1 H2] o Ho. apply valid_obstacle_iff. split; auto.
Qed.

(** C6.  In a positive dimension, construction over a given obstacle list
    fails exactly when some obstacle is invalid, and the message tells which
    check failed: some obstacle whose number of coordinates is not twice the
    dimension; otherwise some obstacle with a minimum that is not below its
    maximum.  The length check runs over all obstacles first.  When every
    obstacle is valid, construction succeeds and the index holds one entry
    per obstacle, its box made of the obstacle's minima and maxima. *)
Theorem ObstacleRtree_init_spec (dim : Z) (obstacles : list (list Q)) :
  (0 < dim)%Z ->
  let r := ObstacleRtree.__init__ dim (Some obstacles) in
  (r = Raise (Exception "Obstacle has incorrect dimension definition") <->
     Exists (fun o => len o <> (2 * dim)%Z) obstacles) /\
  (r = Raise (Exception "Obstacle start must be less than obstacle end") <->
     Forall (fun o => len o = (2 * dim)%Z) obstacles /\
     Exists (out_of_order dim) obstacles) /\
  ((exists e, r = Raise e) <-> ~ Forall (valid_obstacle dim) obstacles) /\
  (Forall (valid_obstacle dim) obstacles <-> r = Ok (index_of dim obstacles)) /\
  (forall self, r = Ok self ->
     self.(ObstacleRtree.obs).(rtree.entries) = map (entry_of dim) obstacles).
Proof.
  intros Hd r. subst r. rewrite (ObstacleRtree_init_eq dim obstacles Hd).
  rewrite valid_obstacles_iff, <- wrong_length_Exists, <- wrong_length_Forall,
    <- misordered_Exists.
  destruct (existsb (wrong_length dim) obstacles);
    [|destruct (existsb (misordered dim) obstacles)];
    repeat split;
    repeat match goal with
           | |- _ -> _ => intro
           | |- ~ _ => intro
           | H : _ /\ _ |- _ => destruct H
           | H : exists _, _ |- _ => destruct H
           | H : Ok _ = Ok _ |- _ => inversion H; subst; clear H
           | |- exists _, Raise ?e = Raise _ => exists e; reflexivity
           | H : ~ _ |- _ => exfalso; apply H; clear H
           end;
    try discriminate; try congruence; try reflexivity; auto.
Qed.

(** ** ObstacleRtree: queries *)

Lemma combine_self_le (x : list Q) :
  forallb (fun '(a, b) => Qle_bool a b) (combine x x) = true.
Proof.
  induction x as [|a x IH]; simpl; [reflexivity|].
  rewrite IH, andb_true_r. apply Qle_bool_iff. apply Qle_refl.
Qed.

Lemma point_query (p : rtree.Property) (x : Point) :
  len x = p.(rtree.dimension) ->
  rtree.get_coordinate_pointers p x = Ok (x, x).
Proof.
  intros H. unfold rtree.get_coordinate_pointers.
  rewrite <- H, Z.eqb_refl.
  replace (len (x ++ x) =? len x * 2)%Z with true.
  2:{ symmetry. apply Z.eqb_eq. unfold len. rewrite length_app. lia. }
  cbn [negb]. unfold len. rewrite Nat2Z.id.
  rewrite firstn_app, Nat.sub_diag, firstn_all, app_nil_r.
  rewrite skipn_app, Nat.sub_diag, skipn_all, app_nil_l.
  cbn [skipn]. rewrite combine_self_le. reflexivity.
Qed.

Lemma intersects_point (e : rtree.Entry) (x : Point) :
  rtree.intersects x x e = box_contains e x.
Proof.
  unfold rtree.intersects, box_contains.
  generalize (combine (rtree.mins e) (rtree.maxs e)). intros l.
  revert x. induction l as [|[lo hi] l IH]; intros [|xi x]; simpl;
    try reflexivity.
  rewrite IH. reflexivity.
Qed.

Lemma count_point (idx : rtree.Index) (x : Point) :
  len x = idx.(rtree.properties).(rtree.dimension) ->
  rtree.count idx x = Ok (Z.of_nat (containing idx x)).
Proof.
  intros H. unfold rtree.count. rewrite (point_query _ x H). cbn [bind fst snd].
  unfold containing, len. do 3 f_equal.
  apply filter_ext. intros e. apply intersects_point.
Qed.

Lemma obstacle_free_eq (self : ObstacleRtree.t) (x : Point) :
  len x = self.(ObstacleRtree.obs).(rtree.properties).(rtree.dimension) ->
  ObstacleRtree.obstacle_free x self =
  (Ok (containing self.(ObstacleRtree.obs) x =? 0)%nat, self).
Proof.
  intros H. unfold ObstacleRtree.obstacle_free. rewrite (count_point _ x H).
  cbn [bind]. do 2 f_equal.
  destruct (containing (ObstacleRtree.obs self) x); reflexivity.
Qed.

(** C1.  For a point of the dimension of the index, [obstacle_free] returns
    true exactly when no indexed rectangle contains the point, and hands the
    object back as it received it. *)
Theorem obstacle_free_spec (self : ObstacleRtree.t) (x : Point) :
  len x = self.(ObstacleRtree.obs).(rtree.properties).(rtree.dimension) ->
  exists b,
    ObstacleRtree.obstacle_free x self = (Ok b, self) /\
    (b = true <-> containing self.(ObstacleRtree.obs) x = 0%nat).
Proof.
  intros H. rewrite (obstacle_free_eq self x H).
  eexists. split; [reflexivity|]. apply Nat.eqb_eq.
Qed.

Lemma peq_len (x y : Point) : peq x y -> len x = len y.
Proof.
  intros H. unfold len. f_equal. exact (Forall2_length H).
Qed.

Lemma Qle_bool_Qeq (a b c d : Q) :
  a == b -> c == d -> Qle_bool a c = Qle_bool b d.
Proof.
  intros H1 H2. destruct (Qle_bool b d) eqn:E.
  - apply Qle_bool_iff. apply Qle_bool_iff in E. rewrite H1, H2. exact E.
  - destruct (Qle_bool a c) eqn:E'; [|reflexivity].
    apply Qle_bool_iff in E'. rewrite H1, H2 in E'.
    apply Qle_bool_iff in E'. congruence.
Qed.

Lemma box_contains_peq (e : rtree.Entry) (x y : Point) :
  peq x y -> box_contains e x = box_contains e y.
Proof.
  unfold box_contains.
  generalize (combine (rtree.mins e) (rtree.maxs e)). intros l H.
  revert l. induction H as [|a b x y Hab _ IH]; intros [|[lo hi] l]; simpl;
    try reflexivity.
  rewrite (IH l), (Qle_bool_Qeq lo lo a b), (Qle_bool_Qeq a b hi hi);
    (reflexivity || assumption).
Qed.

Lemma containing_peq (idx : rtree.Index) (x y : Point) :
  peq x y -> containing idx x = containing idx y.
Proof.
  intros H. unfold containing. f_equal. apply filter_ext.
  intros e. apply box_contains_peq. exact H.
Qed.

Section Queries.

Variable self : ObstacleRtree.t.

Let dim : Z := self.(ObstacleRtree.obs).(rtree.properties).(rtree.dimension).

Lemma obstacle_free_state (x : Point) :
  snd (ObstacleRtree.obstacle_free x self) = self.
Proof. reflexivity. Qed.

Lemma all_map_total (points : list Point) :
  Forall (fun x => len x = dim) points ->
  ObstacleRtree.all_map ObstacleRtree.obstacle_free points self =
  (Ok (forallb (clear self) points), self).
Proof.
  induction 1 as [|x l Hx _ IH]; [reflexivity|].
  cbn [ObstacleRtree.all_map forallb].
  rewrite (obstacle_free_eq self x Hx). fold (clear self x).
  destruct (clear self x); [exact IH | reflexivity].
Qed.

Lemma all_map_state (points : list Point) :
  snd (ObstacleRtree.all_map ObstacleRtree.obstacle_free points self) = self.
Proof.
  induction points as [|x l IH]; [reflexivity|].
  cbn [ObstacleRtree.all_map].
  destruct (ObstacleRtree.obstacle_free x self) as [[[|]|e] s] eqn:E;
    pose proof (obstacle_free_state x) as Hs; rewrite E in Hs;
    simpl in Hs; subst s; [exact IH | reflexivity | reflexivity].
Qed.

Lemma all_map_true (points : list Point) :
  fst (ObstacleRtree.all_map ObstacleRtree.obstacle_free points self) = Ok true <->
  Forall (fun x => ObstacleRtree.obstacle_free x self = (Ok true, self)) points.
Proof.
  induction points as [|x l IH].
  - split; intros; [constructor | reflexivity].
  - cbn [ObstacleRtree.all_map].
    destruct (ObstacleRtree.obstacle_free x self) as [[[|]|e] s] eqn:E;
      pose proof (obstacle_free_state x) as Hs; rewrite E in Hs;
      simpl in Hs; subst s.
    + rewrite IH. split; intros H.
      * constructor; [exact E | exact H].
      * inversion H; assumption.
    + split; intros H; [discriminate|]. inversion H; subst. congruence.
    + split; intros H; [discriminate|]. inversion H; subst. congruence.
Qed.

Section Helper.

Variable h : Point -> Point -> Q -> list Point.

Lemma collision_free_eq (start end_ : Point) (r : Q) :
  ObstacleRtree.collision_free h start end_ r self =
  ObstacleRtree.all_map ObstacleRtree.obstacle_free (h start end_ r) self.
Proof.
  unfold ObstacleRtree.collision_free.
  destruct (ObstacleRtree.all_map _ _ _). reflexivity.
Qed.

End Helper.

End Queries.

Lemma forallb_false_Exists {A : Type} (p : A -> bool) (l : list A) :
  forallb p l = false <-> Exists (fun a => p a = false) l.
Proof.
  induction l as [|a l IH]; simpl.
  - split; intros H; [discriminate | inversion H].
  - rewrite andb_false_iff, IH. split.
    + intros [H|H]; [left | right]; exact H.
    + intros H. inversion H; subst; [left | right]; assumption.
Qed.

Lemma forallb_true_Forall {A : Type} (p : A -> bool) (l : list A) :
  forallb p l = true <-> Forall (fun a => p a = true) l.
Proof.
  rewrite forallb_forall, Forall_forall. reflexivity.
Qed.

(** C2.  [collision_free] is the conjunction of [obstacle_free] over the
    points that the segment helper yields: it returns true exactly when
    [obstacle_free] returns true on every one of them; when the points have
    the dimension of the index it does return, false exactly when
    [obstacle_free] is false on some point; and the object is handed back
    as it was received. *)
Theorem collision_free_spec (h : Point -> Point -> Q -> list Point)
    (self : ObstacleRtree.t) (start end_ : Point) (r : Q) :
  let points := h start end_ r in
  let out := ObstacleRtree.collision_free h start end_ r self in
  (fst out = Ok true <->
     Forall (fun x => ObstacleRtree.obstacle_free x self = (Ok true, self)) points) /\
  snd out = self /\
  (Forall (fun x => len x =
             self.(ObstacleRtree.obs).(rtree.properties).(rtree.dimension)) points ->
   exists b, out = (Ok b, self) /\
     (b = true <->
        Forall (fun x => ObstacleRtree.obstacle_free x self = (Ok true, self)) points) /\
     (b = false <->
        Exists (fun x => ObstacleRtree.obstacle_free x self = (Ok false, self)) points)).
Proof.
  intros points out. subst out. rewrite collision_free_eq. fold points.
  split; [apply all_map_true|]. split; [apply all_map_state|].
  intros Hdim. rewrite (all_map_total self points Hdim).
  exists (forallb (clear self) points). split; [reflexivity|].
  rewrite forallb_true_Forall, forallb_false_Exists.
  rewrite !Forall_forall, !Exists_exists. rewrite Forall_forall in Hdim.
  split; split.
  - intros H x Hx. rewrite (obstacle_free_eq self x (Hdim x Hx)).
    fold (clear self x). rewrite (H x Hx). reflexivity.
  - intros H x Hx. specialize (H x Hx).
    rewrite (obstacle_free_eq self x (Hdim x Hx)) in H.
    injection H as H. exact H.
  - intros (x & Hx & H). exists x. split; [exact Hx|].
    rewrite (obstacle_free_eq self x (Hdim x Hx)).
    fold (clear self x). rewrite H. reflexivity.
  - intros (x & Hx & H). exists x. split; [exact Hx|].
    rewrite (obstacle_free_eq self x (Hdim x Hx)) in H.
    injection H as H. exact H.
Qed.

(** ** Points along a segment *)

Lemma along_length (start end_ : Point) (t : Q) :
  length start = length end_ -> length (along start end_ t) = length start.
Proof.
  intros H. unfold along. rewrite length_map, length_combine. lia.
Qed.

Lemma along_degenerate (p : Point) (t : Q) : peq (along p p t) p.
Proof.
  unfold peq, along. induction p as [|a p IH]; simpl; constructor.
  - ring.
  - exact IH.
Qed.

Lemma peq_trans (x y z : Point) : peq x y -> peq y z -> peq x z.
Proof.
  unfold peq. intros H. revert z. induction H as [|a b x y Hab _ IH];
    intros z Hz; inversion Hz; subst; constructor.
  - etransitivity; eassumption.
  - apply IH. assumption.
Qed.

Lemma on_segment_len (start end_ x : Point) :
  length start = length end_ -> on_segment start end_ x -> len x = len start.
Proof.
  intros H (t & _ & _ & Hx). rewrite (peq_len _ _ Hx). unfold len.
  rewrite (along_length start end_ t H). reflexivity.
Qed.

Lemma on_segment_degenerate (p x : Point) : on_segment p p x -> peq x p.
Proof.
  intros (t & _ & _ & Hx). eapply peq_trans; [exact Hx | apply along_degenerate].
Qed.

Lemma obstacle_free_peq (self : ObstacleRtree.t) (x y : Point) :
  len y = self.(ObstacleRtree.obs).(rtree.properties).(rtree.dimension) ->
  peq x y ->
  ObstacleRtree.obstacle_free x self = ObstacleRtree.obstacle_free y self.
Proof.
  intros Hy Hxy. rewrite !obstacle_free_eq.
  - rewrite (containing_peq _ x y Hxy). reflexivity.
  - exact Hy.
  - rewrite (peq_len x y Hxy). exact Hy.
Qed.

Lemma all_map_constant (self : ObstacleRtree.t) (p x : Point) (rest : list Point) :
  len p = self.(ObstacleRtree.obs).(rtree.properties).(rtree.dimension) ->
  Forall (fun y => peq y p) (x :: rest) ->
  ObstacleRtree.all_map ObstacleRtree.obstacle_free (x :: rest) self =
  ObstacleRtree.obstacle_free p self.
Proof.
  intros Hp H. rewrite all_map_total.
  - rewrite (obstacle_free_eq self p Hp). do 2 f_equal. fold (clear self p).
    assert (Hall : Forall (fun y => clear self y = clear self p) (x :: rest)).
    { revert H. apply Forall_impl. intros y Hy. unfold clear.
      rewrite (containing_peq _ y p Hy). reflexivity. }
    destruct (clear self p) eqn:E.
    + apply forallb_true_Forall. exact Hall.
    + inversion Hall; subst. cbn [forallb]. rewrite H2. reflexivity.
  - revert H. apply Forall_impl. intros y Hy. rewrite (peq_len y p Hy). exact Hp.
Qed.

(** C7.  With a helper that meets its interface (a sequence of points
    along the segment that starts at [start]), the segment from a point of
    the dimension of the index to itself is free of collision exactly when
    that point is free of obstacles. *)
Theorem collision_free_degenerate (h : Point -> Point -> Q -> list Point)
    (self : ObstacleRtree.t) (p : Point) (r : Q) :
  segment_sampler h ->
  len p = self.(ObstacleRtree.obs).(rtree.properties).(rtree.dimension) ->
  0 < r ->
  ObstacleRtree.collision_free h p p r self = ObstacleRtree.obstacle_free p self.
Proof.
  intros Hh Hp Hr. rewrite collision_free_eq.
  destruct (sampler_first h Hh p p r eq_refl Hr) as (x & rest & E & _).
  pose proof (sampler_along h Hh p p r eq_refl Hr) as Hon.
  rewrite E in *. apply all_map_constant; [exact Hp|].
  revert Hon. apply Forall_impl. intros y. apply on_segment_degenerate.
Qed.

Lemma all_map_false (self : ObstacleRtree.t) (points : list Point) :
  fst (ObstacleRtree.all_map ObstacleRtree.obstacle_free points self) = Ok false ->
  Exists (fun x => ObstacleRtree.obstacle_free x self = (Ok false, self)) points.
Proof.
  induction points as [|x l IH]; [discriminate|].
  cbn [ObstacleRtree.all_map].
  destruct (ObstacleRtree.obstacle_free x self) as [[[|]|e] s] eqn:E;
    pose proof (obstacle_free_state self x) as Hs; rewrite E in Hs;
    simpl in Hs; subst s.
  - intros H. right. apply IH. exact H.
  - intros _. left. exact E.
  - discriminate.
Qed.

(** C8, as amended.  When every point sampled at the first resolution is,
    up to the value of its coordinates, among the points sampled at the
    second, and these have the dimension of the index, a collision found at
    the first resolution is found at the second as well. *)
Theorem collision_free_refinement (h : Point -> Point -> Q -> list Point)
    (self : ObstacleRtree.t) (start end_ : Point) (r1 r2 : Q) :
  Forall (fun y => len y =
            self.(ObstacleRtree.obs).(rtree.properties).(rtree.dimension))
         (h start end_ r2) ->
  (forall x, In x (h start end_ r1) ->
     exists y, In y (h start end_ r2) /\ peq x y) ->
  ObstacleRtree.collision_free h start end_ r1 self = (Ok false, self) ->
  ObstacleRtree.collision_free h start end_ r2 self = (Ok false, self).
Proof.
  intros Hdim Hsub H1. rewrite collision_free_eq in *.
  apply (f_equal fst) in H1. apply all_map_false, Exists_exists in H1.
  destruct H1 as (x & Hx & Ex). destruct (Hsub x Hx) as (y & Hy & Hxy).
  rewrite (all_map_total self _ Hdim). do 2 f_equal.
  apply forallb_false_Exists, Exists_exists. exists y. split; [exact Hy|].
  rewrite Forall_forall in Hdim.
  rewrite (obstacle_free_peq self x y (Hdim y Hy) Hxy) in Ex.
  rewrite (obstacle_free_eq self y (Hdim y Hy)) in Ex.
  injection Ex as Ex. exact Ex.
Qed.

(** C9.  An index constructed without an obstacle list is empty: every
    point of its dimension is free of obstacles, and with a helper that
    meets its interface every segment between two such points is free of
    collision at every positive resolution. *)
Theorem ObstacleRtree_init_none (dim : Z) (self : ObstacleRtree.t) :
  ObstacleRtree.__init__ dim None = Ok self ->
  self.(ObstacleRtree.obs).(rtree.entries) = [] /\
  (forall x, len x = dim ->
     ObstacleRtree.obstacle_free x self = (Ok true, self)) /\
  (forall h start end_ r,
     segment_sampler h -> len start = dim -> len end_ = dim -> 0 < r ->
     ObstacleRtree.collision_free h start end_ r self = (Ok true, self)).
Proof.
  unfold ObstacleRtree.__init__, rtree.set_dimension.
  destruct (dim <=? 0)%Z; [discriminate|]. cbn [bind].
  intros H. injection H as <-. split; [reflexivity|].
  assert (Hfree : forall x, len x = dim ->
            ObstacleRtree.obstacle_free x
              {| ObstacleRtree.obs := rtree.Index_new {| rtree.dimension := dim |} |}
            = (Ok true, {| ObstacleRtree.obs :=
                             rtree.Index_new {| rtree.dimension := dim |} |})).
  { intros x Hx. rewrite obstacle_free_eq by exact Hx. reflexivity. }
  split; [exact Hfree|].
  intros h start end_ r Hh Hs He Hr.
  assert (Hlen : length start = length end_).
  { unfold len in Hs, He. lia. }
  pose proof (sampler_along h Hh start end_ r Hlen Hr) as Hon.
  rewrite collision_free_eq, all_map_total.
  - do 2 f_equal. apply forallb_true_Forall, Forall_forall. intros x _.
    reflexivity.
  - revert Hon. apply Forall_impl. intros x Hx. cbn.
    rewrite (on_segment_len start end_ x Hlen Hx). exact Hs.
Qed.

Lemma forallb_zip3 (f : Q * Q * Q -> bool) (a b x : list Q) :
  (forall i lo hi xi,
     nth_error a i = Some lo -> nth_error b i = Some hi ->
     nth_error x i = Some xi -> f (lo, hi, xi) = true) ->
  forallb f (combine (combine a b) x) = true.
Proof.
  revert b x. induction a as [|lo a IH]; intros [|hi b] [|xi x] H; simpl;
    try reflexivity.
  rewrite (H 0%nat lo hi xi eq_refl eq_refl eq_refl). cbn [andb].
  apply IH. intros i. apply (H (S i)).
Qed.

(** C10.  Containment is inclusive of the boundary: a point of the
    dimension of the index whose coordinate on every axis lies between the
    minimum and the maximum of some indexed obstacle, ends included, is not
    free of obstacles. *)
Theorem obstacle_free_closed_box (dim : Z) (obstacles : list (list Q))
    (self : ObstacleRtree.t) (o : list Q) (x : Point) :
  ObstacleRtree.__init__ dim (Some obstacles) = Ok self ->
  In o obstacles ->
  len x = dim ->
  (forall i lo hi xi,
     nth_error o i = Some lo -> nth_error o (Z.to_nat dim + i) = Some hi ->
     nth_error x i = Some xi -> lo <= xi /\ xi <= hi) ->
  ObstacleRtree.obstacle_free x self = (Ok false, self).
Proof.
  intros Hinit Ho Hx Hbox.
  assert (Hd : (0 < dim)%Z).
  { unfold ObstacleRtree.__init__, rtree.set_dimension in Hinit.
    destruct (dim <=? 0)%Z eqn:E; [discriminate|]. apply Z.leb_gt in E. exact E. }
  rewrite (ObstacleRtree_init_eq dim obstacles Hd) in Hinit.
  destruct (existsb (wrong_length dim) obstacles); [discriminate|].
  destruct (existsb (misordered dim) obstacles); [discriminate|].
  injection Hinit as <-. rewrite obstacle_free_eq by exact Hx.
  do 2 f_equal. apply Nat.eqb_neq. unfold containing.
  cbn [index_of ObstacleRtree.obs rtree.entries].
  assert (Hin : In (entry_of dim o)
                   (filter (fun e => box_contains e x) (map (entry_of dim) obstacles))).
  { apply filter_In. split; [apply in_map; exact Ho|].
    unfold box_contains, entry_of. cbn [rtree.mins rtree.maxs].
    apply forallb_zip3. intros i lo hi xi Hlo Hhi Hxi.
    rewrite nth_error_firstn in Hlo. rewrite nth_error_skipn in Hhi.
    destruct (i <? Z.to_nat dim)%nat; [|discriminate].
    destruct (Hbox i lo hi xi Hlo Hhi Hxi) as [H1 H2].
    apply andb_true_iff. split; apply Qle_bool_iff; assumption. }
  destruct (filter _ _); [contradiction | discriminate].
Qed.

(** ** The modelled helper meets its interface *)

Lemma peq_refl (x : Point) : peq x x.
Proof. unfold peq. induction x; constructor; [reflexivity | assumption]. Qed.

Lemma peq_sym (x y : Point) : peq x y -> peq y x.
Proof.
  unfold peq. induction 1; constructor; [symmetry|]; assumption.
Qed.

Lemma along_start (start end_ : Point) (t : Q) :
  length start = length end_ -> t == 0 -> peq (along start end_ t) start.
Proof.
  intros H Ht. unfold peq, along. revert end_ H.
  induction start as [|a s IH]; intros [|b e] H; simpl in *; try discriminate;
    constructor.
  - rewrite Ht. ring.
  - apply IH. lia.
Qed.

Lemma along_end (start end_ : Point) (t : Q) :
  length start = length end_ -> t == 1 -> peq (along start end_ t) end_.
Proof.
  intros H Ht. unfold peq, along. revert end_ H.
  induction start as [|a s IH]; intros [|b e] H; simpl in *; try discriminate;
    constructor.
  - rewrite Ht. ring.
  - apply IH. lia.
Qed.

Lemma Qsquare_nonneg (x : Q) : 0 <= x * x.
Proof. nra. Qed.

Lemma sq_dist_nonneg (a b : Point) : 0 <= sq_dist a b.
Proof.
  unfold sq_dist. generalize (combine a b). intros l.
  induction l as [|[x y] l IH]; simpl; [lra|].
  pose proof (Qsquare_nonneg (y - x)) as H. lra.
Qed.

Lemma sq_dist_zero (a b : Point) :
  length a = length b -> sq_dist a b <= 0 -> peq a b.
Proof.
  unfold peq, sq_dist. revert b.
  induction a as [|x a IH]; intros [|y b] H; simpl in *; try discriminate;
    intros Hd; constructor.
  - pose proof (sq_dist_nonneg a b) as Hn. unfold sq_dist in Hn.
    pose proof (Qsquare_nonneg (y - x)) as Hs.
    assert (Hz : (y - x) * (y - x) == 0) by lra.
    apply Qmult_integral in Hz. destruct Hz; lra.
  - apply IH; [lia|].
    pose proof (Qsquare_nonneg (y - x)) as Hs. lra.
Qed.

Lemma sq_dist_along (start end_ : Point) (t u : Q) :
  sq_dist (along start end_ t) (along start end_ u) ==
  (u - t) * (u - t) * sq_dist start end_.
Proof.
  unfold sq_dist, along. revert end_.
  induction start as [|a s IH]; intros [|b e]; simpl; try ring.
  rewrite IH. ring.
Qed.

Lemma ceil_sqrt_spec (m : Z) :
  (m <= ceil_sqrt m * ceil_sqrt m)%Z /\ (0 <= ceil_sqrt m)%Z.
Proof.
  unfold ceil_sqrt. pose proof (Z.sqrt_nonneg m) as Hs.
  destruct (Z.le_gt_cases 0 m) as [Hm|Hm].
  - pose proof (Z.sqrt_spec m Hm) as [H1 H2].
    destruct (Z.sqrt m * Z.sqrt m =? m)%Z eqn:E.
    + apply Z.eqb_eq in E. lia.
    + unfold Z.succ in H2. nia.
  - destruct (Z.sqrt m * Z.sqrt m =? m)%Z; nia.
Qed.

Lemma steps_cover (start end_ : Point) (r : Q) :
  0 < r ->
  let n := inject_Z (Z.of_nat (steps start end_ r)) in
  0 <= n /\ sq_dist start end_ <= n * n * (r * r).
Proof.
  intros Hr n. subst n. unfold steps.
  set (q := sq_dist start end_ / (r * r)).
  destruct (ceil_sqrt_spec (Qceiling q)) as [H1 H2].
  rewrite Z2Nat.id by exact H2.
  set (c := ceil_sqrt (Qceiling q)) in *.
  assert (Hrr : 0 < r * r) by (apply Qmult_lt_0_compat; exact Hr).
  assert (Hq : q <= inject_Z c * inject_Z c).
  { eapply Qle_trans; [apply Qle_ceiling|].
    rewrite <- inject_Z_mult. rewrite <- Zle_Qle. exact H1. }
  split; [change 0 with (inject_Z 0); rewrite <- Zle_Qle; exact H2|].
  assert (Hd : sq_dist start end_ == q * (r * r)).
  { unfold q. field. lra. }
  rewrite Hd. apply Qmult_le_compat_r; [exact Hq | lra].
Qed.

Lemma spaced_map_seq (r : Q) (f : nat -> Point) (m k : nat) :
  (forall i, (k <= i < k + m)%nat -> sq_dist (f i) (f (S i)) <= r * r) ->
  spaced r (map f (seq k (S m))).
Proof.
  revert k. induction m as [|m IH]; intros k H; [exact I|].
  change (sq_dist (f k) (f (S k)) <= r * r /\
          spaced r (map f (seq (S k) (S m)))).
  split; [apply H; lia|]. apply IH. intros i Hi. apply H. lia.
Qed.

Lemma inject_succ_pos (m : nat) : 0 < inject_Z (Z.of_nat (S m)).
Proof. change 0 with (inject_Z 0). rewrite <- Zlt_Qlt. lia. Qed.

Section Equally_spaced.

Variables (start end_ : Point) (r : Q).
Hypothesis same_length : length start = length end_.
Hypothesis positive : 0 < r.

Lemma es_first :
  exists x rest, es_points_along_line start end_ r = x :: rest /\ peq x start.
Proof.
  unfold es_points_along_line. destruct (steps start end_ r) as [|m] eqn:E.
  - exists start, []. split; [reflexivity | apply peq_refl].
  - eexists. eexists. split; [reflexivity|].
    apply along_start; [exact same_length|].
    pose proof (inject_succ_pos m). change (inject_Z (Z.of_nat 0)) with 0.
    field. lra.
Qed.

Lemma es_last :
  exists front x, es_points_along_line start end_ r = front ++ [x] /\ peq x end_.
Proof.
  unfold es_points_along_line. destruct (steps start end_ r) as [|m] eqn:E.
  - exists [], start. split; [reflexivity|].
    apply sq_dist_zero; [exact same_length|].
    destruct (steps_cover start end_ r positive) as [_ H].
    rewrite E in H. change (inject_Z (Z.of_nat 0)) with 0 in H.
    rewrite !Qmult_0_l in H. exact H.
  - rewrite seq_S, map_app. eexists. eexists. split; [reflexivity|].
    apply along_end; [exact same_length|].
    pose proof (inject_succ_pos m). cbn [Nat.add]. field. lra.
Qed.

Lemma es_along :
  Forall (on_segment start end_) (es_points_along_line start end_ r).
Proof.
  unfold es_points_along_line. destruct (steps start end_ r) as [|m] eqn:E.
  - constructor; [|constructor]. exists 0. split; [lra|]. split; [lra|].
    apply peq_sym. apply along_start; [exact same_length | reflexivity].
  - apply Forall_map, Forall_forall. intros i Hi. apply in_seq in Hi.
    pose proof (inject_succ_pos m) as HN.
    exists (inject_Z (Z.of_nat i) / inject_Z (Z.of_nat (S m))).
    split; [|split].
    + apply Qle_shift_div_l; [exact HN|]. rewrite Qmult_0_l.
      change 0 with (inject_Z 0). rewrite <- Zle_Qle. lia.
    + apply Qle_shift_div_r; [exact HN|]. rewrite Qmult_1_l.
      rewrite <- Zle_Qle. lia.
    + apply peq_refl.
Qed.

Lemma es_spaced : spaced r (es_points_along_line start end_ r).
Proof.
  unfold es_points_along_line. destruct (steps start end_ r) as [|m] eqn:E;
    [exact I|].
  apply spaced_map_seq. intros i _. rewrite sq_dist_along.
  pose proof (inject_succ_pos m) as HN.
  destruct (steps_cover start end_ r positive) as [_ H]. rewrite E in H.
  set (N := inject_Z (Z.of_nat (S m))) in *.
  assert (Hstep : inject_Z (Z.of_nat (S i)) / N - inject_Z (Z.of_nat i) / N
                  == 1 / N).
  { rewrite Nat2Z.inj_succ. unfold Z.succ. rewrite inject_Z_plus.
    change (inject_Z 1) with 1. field. lra. }
  rewrite Hstep.
  assert (HNN : 0 < N * N) by (apply Qmult_lt_0_compat; exact HN).
  apply Qle_trans with (1 / N * (1 / N) * (N * N * (r * r))).
  - apply Qmult_le_l; [|exact H].
    assert (Hinv : 1 / N * (1 / N) == / (N * N)) by (field; lra).
    rewrite Hinv. apply Qinv_lt_0_compat. exact HNN.
  - assert (Heq : 1 / N * (1 / N) * (N * N * (r * r)) == r * r)
      by (field; lra).
    rewrite Heq. apply Qle_refl.
Qed.

End Equally_spaced.

Lemma es_points_along_line_sampler : segment_sampler es_points_along_line.
Proof.
  constructor; intros start end_ r Hlen Hr.
  - apply es_first; assumption.
  - apply es_last; assumption.
  - apply es_along; assumption.
  - apply es_spaced; assumption.
Qed.

(** ** The scenario of the specification *)

Example scenario_init :
  ObstacleRtree.__init__ 2 (Some scenario_obstacles) = Ok scenario.
Proof. vm_compute. reflexivity. Qed.

Example scenario_inside :
  ObstacleRtree.obstacle_free [3; 3] scenario = (Ok false, scenario).
Proof. vm_compute. reflexivity. Qed.

Example scenario_outside :
  ObstacleRtree.obstacle_free [0; 0] scenario = (Ok true, scenario).
Proof. vm_compute. reflexivity. Qed.

Example scenario_crossing :
  ObstacleRtree.collision_free es_points_along_line [0; 0] [5; 5] (1 # 2) scenario
  = (Ok false, scenario).
Proof. vm_compute. reflexivity. Qed.

Example scenario_short :
  ObstacleRtree.collision_free es_points_along_line [0; 0] [1; 1] (1 # 2) scenario
  = (Ok true, scenario).
Proof. vm_compute. reflexivity. Qed.

Example scenario_wrong_length :
  ObstacleRtree.__init__ 2 (Some [[0; 0; 1]]) =
  Raise (Exception "Obstacle has incorrect dimension definition").
Proof. vm_compute. reflexivity. Qed.

Example one_dimension :
  SearchSpace.__init__ [[0; 1]] (fun _ => true) (fun _ _ _ => true) =
  Raise (Exception "Must have at least 2 dimensions").
Proof. vm_compute. reflexivity. Qed.

Example reversed_bound :
  SearchSpace.__init__ [[1; 0]; [0; 1]] (fun _ => true) (fun _ _ _ => true) =
  Raise (Exception "Dimension start must be less than dimension end").
Proof. vm_compute. reflexivity. Qed.

(** ** Concrete instances *)

Lemma late_unit (n : nat) :
  0 <= late.(variates) n /\ late.(variates) n < 1.
Proof.
  simpl. destruct (n <? 2)%nat; split; vm_compute; congruence.
Qed.

Lemma SearchSpace_init_spec_witness :
  SearchSpace.__init__ room_bounds always_free always_clear = Ok (room always_free) /\
  valid_bounds room_bounds.
Proof.
  pose proof (SearchSpace_init_spec room_bounds always_free always_clear) as H.
  cbv zeta in H. destruct H as (_ & _ & _ & _ & H & _).
  split; [reflexivity|]. apply H. reflexivity.
Defined.

Lemma sample_in_bounds_witness :
  exists x g',
    SearchSpace.sample (room always_free) late = Ok (x, g') /\
    len x = 2%Z /\
    g' = {| variates := late.(variates); position := 2 |} /\
    forall k lo hi, nth_error room_bounds k = Some [lo; hi] ->
      exists xk, nth_error x k = Some xk /\
        xk = lo + (hi - lo) * late.(variates) k /\
        lo <= xk /\ xk <= hi.
Proof.
  exact (sample_in_bounds room_bounds always_free always_clear
           (room always_free) late eq_refl late_unit).
Defined.

Lemma sample_free_spec_witness :
  SearchSpace.sample_free 2 (room right_half) late =
  Some (Ok ([30 # 4; 15 # 4],
            {| variates := late.(variates); position := 4 |})).
Proof.
  pose proof (sample_free_spec room_bounds right_half always_clear
                (room right_half) late eq_refl) as H.
  destruct H as (_ & H & _).
  apply (H 1%nat); [reflexivity | reflexivity | | lia].
  intros [|j] y g'' Hj E; [|lia].
  injection E as <- _. reflexivity.
Defined.

Lemma ObstacleRtree_init_spec_witness :
  (0 < 2)%Z /\
  ObstacleRtree.__init__ 2 (Some scenario_obstacles) = Ok scenario /\
  Forall (valid_obstacle 2) scenario_obstacles.
Proof.
  assert (Hd : (0 < 2)%Z) by lia.
  pose proof (ObstacleRtree_init_spec 2 scenario_obstacles Hd) as H.
  cbv zeta in H. destruct H as (_ & _ & _ & H & _).
  split; [exact Hd|]. split; [reflexivity|]. apply H. reflexivity.
Defined.

Lemma obstacle_free_spec_witness :
  exists b,
    ObstacleRtree.obstacle_free [3; 3] scenario = (Ok b, scenario) /\
    (b = true <-> containing scenario.(ObstacleRtree.obs) [3; 3] = 0%nat).
Proof.
  exact (obstacle_free_spec scenario [3; 3] eq_refl).
Defined.

Lemma collision_free_spec_witness :
  exists b,
    ObstacleRtree.collision_free es_points_along_line [0; 0] [5; 5] (1 # 2) scenario
    = (Ok b, scenario) /\
    (b = true <->
       Forall (fun x => ObstacleRtree.obstacle_free x scenario = (Ok true, scenario))
              (es_points_along_line [0; 0] [5; 5] (1 # 2))) /\
    (b = false <->
       Exists (fun x => ObstacleRtree.obstacle_free x scenario = (Ok false, scenario))
              (es_points_along_line [0; 0] [5; 5] (1 # 2))).
Proof.
  pose proof (collision_free_spec es_points_along_line scenario
                [0; 0] [5; 5] (1 # 2)) as H.
  cbv zeta in H. destruct H as (_ & _ & H). apply H.
  vm_compute. repeat constructor.
Defined.

Lemma collision_free_degenerate_witness :
  ObstacleRtree.collision_free es_points_along_line [3; 3] [3; 3] (1 # 2) scenario
  = ObstacleRtree.obstacle_free [3; 3] scenario.
Proof.
  apply (collision_free_degenerate es_points_along_line scenario [3; 3] (1 # 2)).
  - exact es_points_along_line_sampler.
  - reflexivity.
  - reflexivity.
Defined.

Lemma ObstacleRtree_init_none_witness :
  (forall x, len x = 2%Z ->
     ObstacleRtree.obstacle_free x (index_of 2 []) = (Ok true, index_of 2 [])) /\
  ObstacleRtree.collision_free es_points_along_line [0; 0] [5; 5] (1 # 2)
    (index_of 2 []) = (Ok true, index_of 2 []).
Proof.
  destruct (ObstacleRtree_init_none 2 (index_of 2 []) eq_refl) as (_ & H1 & H2).
  split; [exact H1|].
  apply H2; [exact es_points_along_line_sampler | reflexivity .. ].
Defined.

Lemma obstacle_free_closed_box_witness :
  ObstacleRtree.obstacle_free [2; 4] scenario = (Ok false, scenario).
Proof.
  apply (obstacle_free_closed_box 2 scenario_obstacles scenario [2; 2; 4; 4] [2; 4]).
  - reflexivity.
  - left. reflexivity.
  - reflexivity.
  - intros [|[|i]] lo hi xi Hlo Hhi Hxi; simpl in *.
    + injection Hlo as <-. injection Hhi as <-. injection Hxi as <-.
      split; vm_compute; congruence.
    + injection Hlo as <-. injection Hhi as <-. injection Hxi as <-.
      split; vm_compute; congruence.
    + destruct i; discriminate.
Defined.

(** Sampling from (0, 0) to (10, 0) in steps of at most 5 lands on (5, 0),
    inside the wall; in steps of at most 4 it lands on (10/3, 0) and
    (20/3, 0), on either side of it. *)
Lemma collision_free_not_monotone :
  ObstacleRtree.__init__ 2 (Some wall_obstacles) = Ok wall /\
  0 < 4 /\ 4 < 5 /\
  ObstacleRtree.collision_free es_points_along_line [0; 0] [10; 0] 5 wall
  = (Ok false, wall) /\
  ObstacleRtree.collision_free es_points_along_line [0; 0] [10; 0] 4 wall
  = (Ok true, wall).
Proof.
  repeat split; vm_compute; reflexivity.
Qed.

Lemma collision_free_refinement_witness :
  ObstacleRtree.collision_free es_points_along_line [0; 0] [10; 0] (5 # 2) wall
  = (Ok false, wall).
Proof.
  apply (collision_free_refinement es_points_along_line wall
           [0; 0] [10; 0] 5 (5 # 2)).
  - vm_compute. repeat constructor.
  - intros x Hx. vm_compute in Hx.
    destruct Hx as [<-|[<-|[<-|[]]]].
    + exists [0 # 4; 0 # 4]. split.
      * vm_compute. left. reflexivity.
      * repeat constructor.
    + exists [20 # 4; 0 # 4]. split.
      * vm_compute. do 2 right. left. reflexivity.
      * repeat constructor.
    + exists [40 # 4; 0 # 4]. split.
      * vm_compute. do 4 right. left. reflexivity.
      * repeat constructor.
  - vm_compute. reflexivity.
Defined.

(** * Further properties *)

(** ** SearchSpace *)

(** X1.  Construction of a search space raises nothing but its own three
    exceptions: the indexing [i[0]], [i[1]] of the last check is never out
    of range, because the check before it has seen that every axis is a
    pair. *)
Theorem SearchSpace_init_errors (dl : list (list Q)) (free : Point -> bool)
    (coll : Point -> Point -> Q -> bool) (e : exn) :
  SearchSpace.__init__ dl free coll = Raise e ->
  e = Exception "Must have at least 2 dimensions" \/
  e = Exception "Dimensions can only have a start and end" \/
  e = Exception "Dimension start must be less than dimension end".
Proof.
  rewrite SearchSpace_init_eq.
  destruct (len dl <? 2)%Z; [intros H; injection H as <-; auto|].
  destruct (existsb malformed_pair dl); [intros H; injection H as <-; auto|].
  destruct (existsb degenerate_pair dl); [intros H; injection H as <-; auto|].
  discriminate.
Qed.

Lemma SearchSpace_init_errors_witness :
  Exception "Dimensions can only have a start and end" =
    Exception "Must have at least 2 dimensions" \/
  Exception "Dimensions can only have a start and end" =
    Exception "Dimensions can only have a start and end" \/
  Exception "Dimensions can only have a start and end" =
    Exception "Dimension start must be less than dimension end".
Proof.
  exact (SearchSpace_init_errors [[0; 1]; [0]] always_free always_clear
           (Exception "Dimensions can only have a start and end") eq_refl).
Defined.

Lemma skip_0 (g : RandomState) : skip 0 g = g.
Proof. destruct g as [v p]. unfold skip. simpl. rewrite Nat.add_0_r. reflexivity. Qed.

Lemma skip_skip (a b : nat) (g : RandomState) : skip a (skip b g) = skip (b + a) g.
Proof. unfold skip. simpl. f_equal. lia. Qed.

Lemma sample_state (dl : list (list Q)) (g : RandomState) :
  snd (uniform (lows dl) (highs dl) g) = skip (length dl) g.
Proof.
  assert (Hlen : length (lows dl) = length (highs dl)).
  { unfold lows, highs. rewrite !length_map. reflexivity. }
  pose proof (uniform_spec (lows dl) (highs dl) g Hlen) as H.
  destruct (uniform (lows dl) (highs dl) g) as [x g'].
  destruct H as (_ & -> & _). unfold lows. rewrite length_map. reflexivity.
Qed.

Lemma draw_valid (dl : list (list Q)) (free : Point -> bool)
    (coll : Point -> Point -> Q -> bool) (self : SearchSpace.t) :
  SearchSpace.__init__ dl free coll = Ok self ->
  forall k g,
    SearchSpace.draw self g k =
    Ok (uniform (lows dl) (highs dl) (skip (k * length dl) g)).
Proof.
  intros Hinit. induction k as [|k IH]; intros g; simpl.
  - rewrite skip_0. apply (sample_valid _ _ _ _ g Hinit).
  - rewrite (sample_valid _ _ _ _ g Hinit). cbn [bind].
    rewrite IH, sample_state, skip_skip. reflexivity.
Qed.

Lemma uniform_in_bounds (dl : list (list Q)) (g : RandomState) :
  valid_bounds dl ->
  (forall n, 0 <= g.(variates) n /\ g.(variates) n < 1) ->
  let x := fst (uniform (lows dl) (highs dl) g) in
  len x = len dl /\
  forall k lo hi, nth_error dl k = Some [lo; hi] ->
    exists xk, nth_error x k = Some xk /\ lo <= xk /\ xk <= hi.
Proof.
  intros [_ Hv] Hu.
  assert (Hlen : length (lows dl) = length (highs dl)).
  { unfold lows, highs. rewrite !length_map. reflexivity. }
  pose proof (uniform_spec (lows dl) (highs dl) g Hlen) as Hs.
  destruct (uniform (lows dl) (highs dl) g) as [x g']. cbn [fst].
  destruct Hs as (Hx & _ & Hn). unfold lows in Hx. rewrite length_map in Hx.
  split; [unfold len; congruence|].
  intros k lo hi Hk. eexists. split.
  - apply Hn; unfold lows, highs; rewrite nth_error_map, Hk; reflexivity.
  - rewrite Forall_forall in Hv. apply nth_error_In in Hk.
    destruct (Hv _ Hk) as (lo' & hi' & E & Hlt). injection E as <- <-.
    apply affine_in_range; [exact Hlt | apply Hu | apply Hu].
Qed.

(** X2.  Whatever [sample_free] returns on a validly constructed space is
    a point of the space: one coordinate per axis, each between the bounds
    of its axis. *)
Theorem sample_free_in_bounds (dl : list (list Q)) (free : Point -> bool)
    (coll : Point -> Point -> Q -> bool) (self : SearchSpace.t)
    (g g' : RandomState) (fuel : nat) (x : Point) :
  SearchSpace.__init__ dl free coll = Ok self ->
  (forall n, 0 <= g.(variates) n /\ g.(variates) n < 1) ->
  SearchSpace.sample_free fuel self g = Some (Ok (x, g')) ->
  len x = self.(SearchSpace.dimensions) /\
  forall k lo hi, nth_error dl k = Some [lo; hi] ->
    exists xk, nth_error x k = Some xk /\ lo <= xk /\ xk <= hi.
Proof.
  intros Hinit Hu Hret.
  destruct (sample_free_sound self fuel g x g' Hret) as (_ & k & _ & Hk & _).
  rewrite (draw_valid dl free coll self Hinit k g) in Hk.
  destruct (SearchSpace_init_ok dl free coll self Hinit) as [Hv ->].
  cbn [SearchSpace.dimensions].
  pose proof (uniform_in_bounds dl (skip (k * length dl) g) Hv Hu) as H.
  cbv zeta in H. injection Hk as Hk. rewrite Hk in H. exact H.
Qed.

Lemma sample_free_in_bounds_witness :
  len [30 # 4; 15 # 4] = 2%Z /\
  forall k lo hi, nth_error room_bounds k = Some [lo; hi] ->
    exists xk, nth_error [30 # 4; 15 # 4] k = Some xk /\ lo <= xk /\ xk <= hi.
Proof.
  exact (sample_free_in_bounds room_bounds right_half always_clear
           (room right_half) late (skip 4 late) 2 [30 # 4; 15 # 4]
           eq_refl late_unit eq_refl).
Defined.

Lemma sample_free_rejecting (self : SearchSpace.t) (fuel : nat) :
  forall g,
    (forall j, (j < fuel)%nat ->
       exists y g'', SearchSpace.draw self g j = Ok (y, g'') /\
                     self.(SearchSpace.obstacle_free) y = false) ->
    SearchSpace.sample_free fuel self g = None.
Proof.
  induction fuel as [|fuel IH]; intros g H; [reflexivity|]. simpl.
  destruct (H 0%nat ltac:(lia)) as (y & g1 & Hy & Ey). simpl in Hy.
  rewrite Hy, Ey. apply IH. intros j Hj.
  destruct (H (S j) ltac:(lia)) as (z & g2 & Hz & Ez). simpl in Hz.
  rewrite Hy in Hz. exists z, g2. split; assumption.
Qed.

(** X3.  On a validly constructed space whose predicate rejects every
    draw, [sample_free] does not return, however many iterations it is
    given: it neither gives up nor raises. *)
Theorem sample_free_all_rejected (dl : list (list Q)) (free : Point -> bool)
    (coll : Point -> Point -> Q -> bool) (self : SearchSpace.t) (g : RandomState) :
  SearchSpace.__init__ dl free coll = Ok self ->
  (forall k x g', SearchSpace.draw self g k = Ok (x, g') -> free x = false) ->
  forall fuel, SearchSpace.sample_free fuel self g = None.
Proof.
  intros Hinit Hrej fuel. apply sample_free_rejecting. intros j _.
  pose proof (draw_valid dl free coll self Hinit j g) as Hd.
  destruct (uniform (lows dl) (highs dl) (skip (j * length dl) g)) as [y g2].
  exists y, g2. split; [exact Hd|].
  destruct (SearchSpace_init_ok dl free coll self Hinit) as [_ ->].
  cbn [SearchSpace.obstacle_free]. apply (Hrej j y g2). exact Hd.
Qed.

Lemma sample_free_all_rejected_witness :
  SearchSpace.sample_free 1000 (room never_free) late = None.
Proof.
  apply (sample_free_all_rejected room_bounds never_free always_clear
           (room never_free) late eq_refl).
  intros k x g' _. reflexivity.
Defined.

(** X4.  When [sample_free] returns after rejecting [k] draws, the random
    source has delivered exactly [(k + 1)] times as many variates as the
    space has axes, and nothing else about it has changed. *)
Theorem sample_free_consumes (dl : list (list Q)) (free : Point -> bool)
    (coll : Point -> Point -> Q -> bool) (self : SearchSpace.t)
    (g g' : RandomState) (fuel : nat) (x : Point) :
  SearchSpace.__init__ dl free coll = Ok self ->
  SearchSpace.sample_free fuel self g = Some (Ok (x, g')) ->
  exists k, (k < fuel)%nat /\
    g' = skip (S k * length dl) g /\
    forall j, (j < k)%nat ->
      exists y g'', SearchSpace.draw self g j = Ok (y, g'') /\ free y = false.
Proof.
  intros Hinit Hret.
  destruct (sample_free_sound self fuel g x g' Hret) as (_ & k & Hk & Hd & Hb).
  exists k. split; [exact Hk|]. split.
  - rewrite (draw_valid dl free coll self Hinit k g) in Hd.
    injection Hd as Hd. apply (f_equal snd) in Hd.
    rewrite sample_state, skip_skip in Hd. cbn [snd] in Hd.
    rewrite <- Hd. f_equal. simpl. lia.
  - assert (Hf : self.(SearchSpace.obstacle_free) = free).
    { destruct (SearchSpace_init_ok dl free coll self Hinit) as [_ ->].
      reflexivity. }
    intros j Hj. destruct (Hb j Hj) as (y & g2 & Hy & Ey).
    exists y, g2. split; [exact Hy|]. rewrite <- Hf. exact Ey.
Qed.

Lemma sample_free_consumes_witness :
  exists k, (k < 2)%nat /\
    skip 4 late = skip (S k * length room_bounds) late /\
    forall j, (j < k)%nat ->
      exists y g'', SearchSpace.draw (room right_half) late j = Ok (y, g'') /\
                    right_half y = false.
Proof.
  exact (sample_free_consumes room_bounds right_half always_clear
           (room right_half) late (skip 4 late) 2 [30 # 4; 15 # 4]
           eq_refl eq_refl).
Defined.

(** ** ObstacleRtree: construction *)

(** X5.  Construction of an obstacle index raises either what rtree
    raises for a dimension that is not positive, or one of its own two
    exceptions: the indexing of the ordering check is never out of range,
    and obstacles that passed both checks are never refused by rtree. *)
Theorem ObstacleRtree_init_errors (dim : Z) (obstacles : option (list (list Q)))
    (e : exn) :
  ObstacleRtree.__init__ dim obstacles = Raise e ->
  ((dim <= 0)%Z /\
   e = RTreeError "Negative or 0 dimensional indexes are not allowed") \/
  ((0 < dim)%Z /\ obstacles <> None /\
   (e = Exception "Obstacle has incorrect dimension definition" \/
    e = Exception "Obstacle start must be less than obstacle end")).
Proof.
  destruct (Z.leb_spec dim 0) as [Hd|Hd].
  - unfold ObstacleRtree.__init__, rtree.set_dimension.
    replace (dim <=? 0)%Z with true by (symmetry; apply Z.leb_le; exact Hd).
    cbn [bind]. intros H. injection H as <-. left. auto.
  - destruct obstacles as [obstacles|].
    + rewrite (ObstacleRtree_init_eq dim obstacles Hd).
      destruct (existsb (wrong_length dim) obstacles);
        [intros H; injection H as <-; right; repeat split; auto; discriminate|].
      destruct (existsb (misordered dim) obstacles);
        [intros H; injection H as <-; right; repeat split; auto; discriminate|].
      discriminate.
    + unfold ObstacleRtree.__init__, rtree.set_dimension.
      replace (dim <=? 0)%Z with false by (symmetry; apply Z.leb_gt; exact Hd).
      discriminate.
Qed.

Lemma ObstacleRtree_init_errors_witness :
  ((2 <= 0)%Z /\
   Exception "Obstacle has incorrect dimension definition" =
   RTreeError "Negative or 0 dimensional indexes are not allowed") \/
  ((0 < 2)%Z /\ Some [[0; 0; 1]] <> None /\
   (Exception "Obstacle has incorrect dimension definition" =
    Exception "Obstacle has incorrect dimension definition" \/
    Exception "Obstacle has incorrect dimension definition" =
    Exception "Obstacle start must be less than obstacle end")).
Proof.
  exact (ObstacleRtree_init_errors 2 (Some [[0; 0; 1]])
           (Exception "Obstacle has incorrect dimension definition") eq_refl).
Defined.

Lemma ObstacleRtree_init_ok (dim : Z) (obstacles : list (list Q))
    (self : ObstacleRtree.t) :
  ObstacleRtree.__init__ dim (Some obstacles) = Ok self ->
  (0 < dim)%Z /\ Forall (valid_obstacle dim) obstacles /\
  self = index_of dim obstacles.
Proof.
  intros Hinit.
  assert (Hd : (0 < dim)%Z).
  { unfold ObstacleRtree.__init__, rtree.set_dimension in Hinit.
    destruct (dim <=? 0)%Z eqn:E; [discriminate|]. apply Z.leb_gt in E. exact E. }
  split; [exact Hd|]. rewrite valid_obstacles_iff.
  rewrite (ObstacleRtree_init_eq dim obstacles Hd) in Hinit.
  destruct (existsb (wrong_length dim) obstacles); [discriminate|].
  destruct (existsb (misordered dim) obstacles); [discriminate|].
  injection Hinit as <-. auto.
Qed.

(** X6.  What a constructed index holds: one entry per obstacle, in the
    order given, each with as many minima and as many maxima as the index
    has dimensions, every minimum strictly below its maximum, and the
    obstacle itself, minima followed by maxima, as the stored object. *)
Theorem ObstacleRtree_invariant (dim : Z) (obstacles : list (list Q))
    (self : ObstacleRtree.t) :
  ObstacleRtree.__init__ dim (Some obstacles) = Ok self ->
  self.(ObstacleRtree.obs).(rtree.properties).(rtree.dimension) = dim /\
  map rtree.obj self.(ObstacleRtree.obs).(rtree.entries) = obstacles /\
  Forall (fun e =>
            len e.(rtree.mins) = dim /\ len e.(rtree.maxs) = dim /\
            e.(rtree.obj) = e.(rtree.mins) ++ e.(rtree.maxs) /\
            Forall (fun '(lo, hi) => lo < hi)
                   (combine e.(rtree.mins) e.(rtree.maxs)))
         self.(ObstacleRtree.obs).(rtree.entries).
Proof.
  intros Hinit. destruct (ObstacleRtree_init_ok dim obstacles self Hinit)
    as (Hd & Hv & ->).
  cbn [index_of ObstacleRtree.obs rtree.properties rtree.dimension rtree.entries].
  split; [reflexivity|]. split.
  - rewrite map_map. cbn [entry_of rtree.obj]. apply map_id.
  - apply Forall_map. revert Hv. apply Forall_impl. intros o [Hlen Hord].
    cbn [entry_of rtree.mins rtree.maxs rtree.obj].
    destruct (halves o dim Hlen) as (Ha & Hb & Ho). unfold len.
    repeat split; try lia; assumption.
Qed.

Lemma ObstacleRtree_invariant_witness :
  map rtree.obj scenario.(ObstacleRtree.obs).(rtree.entries) = scenario_obstacles.
Proof.
  destruct (ObstacleRtree_invariant 2 scenario_obstacles scenario eq_refl)
    as (_ & H & _).
  exact H.
Defined.

(** ** ObstacleRtree: queries *)

Lemma forallb_zip3_inv (f : Q * Q * Q -> bool) (a b x : list Q) :
  forallb f (combine (combine a b) x) = true ->
  forall i lo hi xi,
    nth_error a i = Some lo -> nth_error b i = Some hi ->
    nth_error x i = Some xi -> f (lo, hi, xi) = true.
Proof.
  revert b x. induction a as [|lo' a IH]; intros [|hi' b] [|xi' x] H i lo hi xi;
    try (destruct i; discriminate).
  simpl in H. apply andb_true_iff in H. destruct H as [H0 H].
  destruct i as [|i]; simpl.
  - intros E1 E2 E3. injection E1 as <-. injection E2 as <-. injection E3 as <-.
    exact H0.
  - apply (IH b x H).
Qed.

Lemma box_contains_inside (dim : Z) (o : list Q) (x : Point) :
  len x = dim ->
  box_contains (entry_of dim o) x = true <-> inside dim o x.
Proof.
  intros Hx. unfold box_contains, entry_of, inside.
  cbn [rtree.mins rtree.maxs]. split.
  - intros H i lo hi xi Hlo Hhi Hxi.
    assert (Hi : (i < Z.to_nat dim)%nat).
    { assert (Hsome : nth_error x i <> None) by congruence.
      apply nth_error_Some in Hsome. unfold len in Hx. lia. }
    pose proof (forallb_zip3_inv _ _ _ _ H i lo hi xi) as Hf.
    rewrite nth_error_firstn, nth_error_skipn in Hf.
    replace (i <? Z.to_nat dim)%nat with true in Hf
      by (symmetry; apply Nat.ltb_lt; exact Hi).
    specialize (Hf Hlo Hhi Hxi). apply andb_true_iff in Hf.
    destruct Hf as [H1 H2]. split; apply Qle_bool_iff; assumption.
  - intros H. apply forallb_zip3. intros i lo hi xi Hlo Hhi Hxi.
    rewrite nth_error_firstn in Hlo. rewrite nth_error_skipn in Hhi.
    destruct (i <? Z.to_nat dim)%nat; [|discriminate].
    destruct (H i lo hi xi Hlo Hhi Hxi) as [H1 H2].
    apply andb_true_iff. split; apply Qle_bool_iff; assumption.
Qed.

Lemma filter_nil_iff {A : Type} (p : A -> bool) (l : list A) :
  filter p l = [] <-> forall a, In a l -> p a = false.
Proof.
  induction l as [|a l IH]; simpl.
  - split; [intros _ b [] | reflexivity].
  - destruct (p a) eqn:E; split.
    + discriminate.
    + intros H. specialize (H a (or_introl eq_refl)). congruence.
    + intros H b [<-|Hb]; [exact E | apply IH; assumption].
    + intros H. apply IH. intros b Hb. apply H. right. exact Hb.
Qed.

(** X7.  On a constructed index a point of its dimension is reported
    blocked exactly when it lies in the closed box of at least one of the
    obstacles, and free exactly when it lies in none. *)
Theorem obstacle_free_iff (dim : Z) (obstacles : list (list Q))
    (self : ObstacleRtree.t) (x : Point) :
  ObstacleRtree.__init__ dim (Some obstacles) = Ok self ->
  len x = dim ->
  exists b,
    ObstacleRtree.obstacle_free x self = (Ok b, self) /\
    (b = false <-> exists o, In o obstacles /\ inside dim o x) /\
    (b = true <-> forall o, In o obstacles -> ~ inside dim o x).
Proof.
  intros Hinit Hx.
  destruct (ObstacleRtree_init_ok dim obstacles self Hinit) as (_ & _ & ->).
  rewrite obstacle_free_eq by exact Hx. eexists. split; [reflexivity|].
  unfold containing. cbn [index_of ObstacleRtree.obs rtree.entries].
  rewrite Nat.eqb_neq, Nat.eqb_eq, length_zero_iff_nil, filter_nil_iff.
  split; split.
  - intros H.
    destruct (filter (fun e => box_contains e x) (map (entry_of dim) obstacles))
      as [|e l] eqn:E.
    + exfalso. apply H. intros a Ha.
      apply (proj1 (filter_nil_iff _ _) E a Ha).
    + assert (He : In e (e :: l)) by (left; reflexivity).
      rewrite <- E in He. apply filter_In in He. destruct He as [He Hb].
      apply in_map_iff in He. destruct He as (o & <- & Ho).
      exists o. split; [exact Ho|]. apply (box_contains_inside dim o x Hx), Hb.
  - intros (o & Ho & Hin) H.
    specialize (H (entry_of dim o) (in_map _ _ _ Ho)).
    apply (box_contains_inside dim o x Hx) in Hin. congruence.
  - intros H o Ho Hin. specialize (H (entry_of dim o) (in_map _ _ _ Ho)).
    apply (box_contains_inside dim o x Hx) in Hin. congruence.
  - intros H e He. apply in_map_iff in He. destruct He as (o & <- & Ho).
    destruct (box_contains (entry_of dim o) x) eqn:E; [|reflexivity].
    exfalso. apply (H o Ho). apply (box_contains_inside dim o x Hx), E.
Qed.

Lemma obstacle_free_iff_witness :
  exists b,
    ObstacleRtree.obstacle_free [0; 0] scenario = (Ok b, scenario) /\
    (b = false <-> exists o, In o scenario_obstacles /\ inside 2 o [0; 0]) /\
    (b = true <-> forall o, In o scenario_obstacles -> ~ inside 2 o [0; 0]).
Proof.
  exact (obstacle_free_iff 2 scenario_obstacles scenario [0; 0] eq_refl eq_refl).
Defined.



(** X10.  [collision_free] is decided by the first yielded point that is
    not reported free: if that point is blocked the result is false, and if
    the query on it raises, so does [collision_free]; the points after it
    are not looked at, whatever they are. *)
Theorem collision_free_first_decides (h : Point -> Point -> Q -> list Point)
    (self : ObstacleRtree.t) (start end_ : Point) (r : Q)
    (before after : list Point) (x : Point) (out : result bool) :
  h start end_ r = before ++ x :: after ->
  Forall (fun y => ObstacleRtree.obstacle_free y self = (Ok true, self)) before ->
  ObstacleRtree.obstacle_free x self = (out, self) ->
  out <> Ok true ->
  ObstacleRtree.collision_free h start end_ r self = (out, self).
Proof.
  intros Hpts Hbefore Hx Hout. rewrite collision_free_eq, Hpts. clear Hpts.
  induction Hbefore as [|y l Hy _ IH]; cbn [app ObstacleRtree.all_map].
  - rewrite Hx. destruct out as [[|]|e]; [contradiction | reflexivity ..].
  - rewrite Hy. exact IH.
Qed.

Lemma collision_free_first_decides_witness :
  ObstacleRtree.collision_free three_points [0; 0] [5; 5] 1 scenario =
  (Ok false, scenario).
Proof.
  apply (collision_free_first_decides three_points scenario [0; 0] [5; 5] 1
           [[0; 0]] [[1]] [3; 3] (Ok false)).
  - reflexivity.
  - constructor; [reflexivity | constructor].
  - reflexivity.
  - discriminate.
Defined.

Lemma existsb_perm {A : Type} (p : A -> bool) (l l' : list A) :
  Permutation l l' -> existsb p l = existsb p l'.
Proof.
  induction 1 as [|a l l' _ IH|a b l|l l' l'' _ IH1 _ IH2]; simpl.
  - reflexivity.
  - rewrite IH. reflexivity.
  - destruct (p a), (p b); reflexivity.
  - congruence.
Qed.

Lemma filter_length_perm {A : Type} (p : A -> bool) (l l' : list A) :
  Permutation l l' -> length (filter p l) = length (filter p l').
Proof.
  induction 1 as [|a l l' _ IH|a b l|l l' l'' _ IH1 _ IH2]; simpl.
  - reflexivity.
  - destruct (p a); simpl; rewrite IH; reflexivity.
  - destruct (p a), (p b); reflexivity.
  - congruence.
Qed.

Lemma all_map_fst (s s' : ObstacleRtree.t) (points : list Point) :
  (forall x, fst (ObstacleRtree.obstacle_free x s) =
             fst (ObstacleRtree.obstacle_free x s')) ->
  fst (ObstacleRtree.all_map ObstacleRtree.obstacle_free points s) =
  fst (ObstacleRtree.all_map ObstacleRtree.obstacle_free points s').
Proof.
  intros H. induction points as [|x l IH]; [reflexivity|].
  cbn [ObstacleRtree.all_map]. specialize (H x).
  unfold ObstacleRtree.obstacle_free in *. cbn [fst] in H. rewrite H.
  destruct (c <- rtree.count (ObstacleRtree.obs s') x ;; Ok (c =? 0)%Z)
    as [[|]|e]; [exact IH | reflexivity | reflexivity].
Qed.

(** X8.  The order in which the obstacles are given does not matter:
    two lists that are permutations of each other fail construction with
    the same exception or both succeed, and the two indexes then answer
    every [obstacle_free] and every [collision_free] query alike. *)
Theorem obstacle_order_irrelevant (dim : Z) (obstacles obstacles' : list (list Q)) :
  Permutation obstacles obstacles' ->
  (forall e, ObstacleRtree.__init__ dim (Some obstacles) = Raise e <->
             ObstacleRtree.__init__ dim (Some obstacles') = Raise e) /\
  (forall s s',
     ObstacleRtree.__init__ dim (Some obstacles) = Ok s ->
     ObstacleRtree.__init__ dim (Some obstacles') = Ok s' ->
     (forall x, fst (ObstacleRtree.obstacle_free x s) =
                fst (ObstacleRtree.obstacle_free x s')) /\
     (forall h start end_ r,
        fst (ObstacleRtree.collision_free h start end_ r s) =
        fst (ObstacleRtree.collision_free h start end_ r s'))).
Proof.
  intros Hp. split.
  - intros e. destruct (Z.leb_spec dim 0) as [Hd|Hd].
    + unfold ObstacleRtree.__init__, rtree.set_dimension.
      replace (dim <=? 0)%Z with true by (symmetry; apply Z.leb_le; exact Hd).
      reflexivity.
    + rewrite !(ObstacleRtree_init_eq dim _ Hd).
      rewrite (existsb_perm (wrong_length dim) _ _ Hp).
      rewrite (existsb_perm (misordered dim) _ _ Hp).
      destruct (existsb (wrong_length dim) obstacles'); [reflexivity|].
      destruct (existsb (misordered dim) obstacles'); [reflexivity|].
      split; discriminate.
  - intros s s' Hs Hs'.
    destruct (ObstacleRtree_init_ok dim obstacles s Hs) as (_ & _ & ->).
    destruct (ObstacleRtree_init_ok dim obstacles' s' Hs') as (_ & _ & ->).
    assert (Hfree : forall x,
              fst (ObstacleRtree.obstacle_free x (index_of dim obstacles)) =
              fst (ObstacleRtree.obstacle_free x (index_of dim obstacles'))).
    { intros x. unfold ObstacleRtree.obstacle_free, rtree.count.
      cbn [fst index_of ObstacleRtree.obs rtree.properties rtree.entries].
      destruct (rtree.get_coordinate_pointers _ x) as [box|e]; [|reflexivity].
      cbn [bind]. unfold len.
      rewrite (filter_length_perm _ _ _ (Permutation_map (entry_of dim) Hp)).
      reflexivity. }
    split; [exact Hfree|].
    intros h start end_ r. rewrite !collision_free_eq.
    apply all_map_fst. exact Hfree.
Qed.

Lemma obstacle_order_irrelevant_witness :
  fst (ObstacleRtree.obstacle_free [5; 0]
         (index_of 2 [[2; 2; 4; 4]; [4; -1 # 1; 6; 1]])) =
  fst (ObstacleRtree.obstacle_free [5; 0]
         (index_of 2 [[4; -1 # 1; 6; 1]; [2; 2; 4; 4]])).
Proof.
  destruct (obstacle_order_irrelevant 2
              [[2; 2; 4; 4]; [4; -1 # 1; 6; 1]]
              [[4; -1 # 1; 6; 1]; [2; 2; 4; 4]]
              (perm_swap _ _ _)) as [_ H].
  destruct (H _ _ eq_refl eq_refl) as [H1 _]. exact (H1 [5; 0]).
Defined.

Lemma count_incl (idx idx' : rtree.Index) (x : list Q) :
  idx.(rtree.properties) = idx'.(rtree.properties) ->
  incl idx.(rtree.entries) idx'.(rtree.entries) ->
  rtree.count idx' x = Ok 0%Z -> rtree.count idx x = Ok 0%Z.
Proof.
  intros Hp Hincl. unfold rtree.count. rewrite Hp.
  destruct (rtree.get_coordinate_pointers _ x) as [box|e]; [|discriminate].
  cbn [bind]. intros H. injection H as H. f_equal.
  unfold len in *.
  assert (E : filter (rtree.intersects (fst box) (snd box)) (rtree.entries idx') = []).
  { apply length_zero_iff_nil. lia. }
  assert (E' : filter (rtree.intersects (fst box) (snd box)) (rtree.entries idx) = []).
  { apply filter_nil_iff. intros a Ha.
    apply (proj1 (filter_nil_iff _ _) E a). apply Hincl. exact Ha. }
  rewrite E'. reflexivity.
Qed.

Lemma obstacle_free_true (s : ObstacleRtree.t) (x : Point) :
  fst (ObstacleRtree.obstacle_free x s) = Ok true <->
  rtree.count s.(ObstacleRtree.obs) x = Ok 0%Z.
Proof.
  unfold ObstacleRtree.obstacle_free. cbn [fst].
  destruct (rtree.count (ObstacleRtree.obs s) x) as [c|e]; cbn [bind].
  - split; intros H; injection H as H.
    + apply Z.eqb_eq in H. congruence.
    + subst c. reflexivity.
  - split; discriminate.
Qed.

(** X9.  More obstacles never free anything: if every obstacle of one
    list is among those of another, a point that the index of the larger
    list reports free is reported free by the index of the smaller one, and
    so is a segment that the larger one reports free of collision. *)
Theorem fewer_obstacles (dim : Z) (obstacles obstacles' : list (list Q))
    (s s' : ObstacleRtree.t) :
  ObstacleRtree.__init__ dim (Some obstacles) = Ok s ->
  ObstacleRtree.__init__ dim (Some obstacles') = Ok s' ->
  incl obstacles obstacles' ->
  (forall x,
     ObstacleRtree.obstacle_free x s' = (Ok true, s') ->
     ObstacleRtree.obstacle_free x s = (Ok true, s)) /\
  (forall h start end_ r,
     ObstacleRtree.collision_free h start end_ r s' = (Ok true, s') ->
     ObstacleRtree.collision_free h start end_ r s = (Ok true, s)).
Proof.
  intros Hs Hs' Hincl.
  destruct (ObstacleRtree_init_ok dim obstacles s Hs) as (_ & _ & ->).
  destruct (ObstacleRtree_init_ok dim obstacles' s' Hs') as (_ & _ & ->).
  assert (Hfree : forall x,
            ObstacleRtree.obstacle_free x (index_of dim obstacles') =
              (Ok true, index_of dim obstacles') ->
            ObstacleRtree.obstacle_free x (index_of dim obstacles) =
              (Ok true, index_of dim obstacles)).
  { intros x H. apply (f_equal fst) in H. cbn [fst] in H.
    apply obstacle_free_true in H.
    apply (count_incl (ObstacleRtree.obs (index_of dim obstacles))
             (ObstacleRtree.obs (index_of dim obstacles')) x eq_refl) in H.
    - apply obstacle_free_true in H.
      rewrite (surjective_pairing (ObstacleRtree.obstacle_free _ _)).
      rewrite H, obstacle_free_state. reflexivity.
    - cbn [index_of ObstacleRtree.obs rtree.entries]. apply incl_map. exact Hincl. }
  split; [exact Hfree|].
  intros h start end_ r H. apply (f_equal fst) in H. cbn [fst] in H.
  rewrite collision_free_eq in *. apply all_map_true in H.
  rewrite (surjective_pairing (ObstacleRtree.all_map _ _ _)), all_map_state.
  f_equal. apply all_map_true. revert H. apply Forall_impl. exact Hfree.
Qed.

Lemma fewer_obstacles_witness :
  ObstacleRtree.obstacle_free [0; 0] wall = (Ok true, wall).
Proof.
  destruct (fewer_obstacles 2 wall_obstacles [[2; 2; 4; 4]; [4; -1 # 1; 6; 1]]
              wall (index_of 2 [[2; 2; 4; 4]; [4; -1 # 1; 6; 1]])
              eq_refl eq_refl) as [H _].
  - intros o [<-|[]]. right. left. reflexivity.
  - apply (H [0; 0]). reflexivity.
Defined.
